(** * babyagi.py: the task loop and its four agents

    A shallow embedding of [babyagi.py]: the string helpers the agents use to
    parse model output, the agents themselves, and the main loop, written in a
    state-and-exception monad over the process globals ([task_list],
    [task_id_counter]), the Pinecone index and the hidden state of the OpenAI
    and Pinecone services.

    Conventions.
    - A Python [str] is a list of Unicode code points ([N]).
    - A Python [int] is a [Z].
    - A Python [float] that is finite (a temperature, a similarity score) is
      its exact rational value ([Q]); comparisons of finite floats agree with
      comparisons of their rational values.
    - Console output ([print]) and the command-line handling that computes the
      configuration globals are not modelled; the configuration is a record.
*)

From Stdlib Require Import ZArith QArith List String Ascii Lia Sorted Permutation.
From Stdlib Require Import DecimalString DecimalZ DecimalPos.
From stdpp Require Import gmap list.
Import ListNotations.

Local Open Scope Z_scope.
Local Open Scope list_scope.

(* ===================================================================== *)
(** ** Python strings *)
(* ===================================================================== *)

Module PyStr.

(** A [str] is a sequence of code points. *)
Abbreviation str := (list N).

(** A Rocq string literal read as a [str] (each byte one code point). *)
Definition py (s : string) : str :=
  List.map N_of_ascii (list_ascii_of_string s).

Definition NEWLINE : N := 10%N.
Definition SPACE : N := 32%N.
Definition DOT : N := 46%N.

(** [c.isspace()]: the code points CPython's [str.strip()] removes
    (the table behind [_PyUnicode_IsWhitespace]). *)
Definition isspace (c : N) : bool :=
  ((9 <=? c) && (c <=? 13)
   || (28 <=? c) && (c <=? 32)
   || (c =? 133) || (c =? 160) || (c =? 5760)
   || (8192 <=? c) && (c <=? 8202)
   || (c =? 8232) || (c =? 8233) || (c =? 8239) || (c =? 8287)
   || (c =? 12288))%N.

(** [s.lstrip()] *)
Fixpoint lstrip (s : str) : str :=
  match s with
  | [] => []
  | c :: s' => if isspace c then lstrip s' else s
  end.

(** [s.rstrip()] *)
Definition rstrip (s : str) : str := rev (lstrip (rev s)).

(** [s.strip()] *)
Definition strip (s : str) : str := rstrip (lstrip s).

(** [s.split(sep)] for a one-character separator: always at least one
    field, the empty string gives one empty field. *)
Fixpoint split (sep : N) (s : str) : list str :=
  match s with
  | [] => [[]]
  | c :: s' =>
      if (c =? sep)%N then [] :: split sep s'
      else match split sep s' with
           | field :: fields => (c :: field) :: fields
           | [] => [[c]]
           end
  end.

(** [s.split(sep, 1)] for a one-character separator: one field when [sep]
    does not occur, otherwise the text before the first [sep] and the text
    after it. *)
Fixpoint split1 (sep : N) (s : str) : list str :=
  match s with
  | [] => [[]]
  | c :: s' =>
      if (c =? sep)%N then [[]; s']
      else match split1 sep s' with
           | field :: fields => (c :: field) :: fields
           | [] => [[c]]
           end
  end.

(** [s.replace(old, new)] for one-character [old] and [new]. *)
Definition replace (old new : N) (s : str) : str :=
  List.map (fun c => if (c =? old)%N then new else c) s.

(** [sep.join(parts)] *)
Fixpoint join (sep : str) (parts : list str) : str :=
  match parts with
  | [] => []
  | [p] => p
  | p :: rest => p ++ sep ++ join sep rest
  end.

(** [str(z)] for an [int]: decimal digits, a leading [-] when negative. *)
Definition str_of_int (z : Z) : str :=
  py (NilZero.string_of_int (Z.to_int z)).

(** [sep in s] for a one-character [sep]. *)
Definition contains (sep : N) (s : str) : bool :=
  existsb (fun c => (c =? sep)%N) s.

End PyStr.
Import PyStr.


(* ===================================================================== *)
(** ** Data model *)
(* ===================================================================== *)

(** The value under ["task_id"] of a task dict: the main loop stores an
    [int] (the seed task and every task it creates), the prioritization
    agent stores the [str] it cut out of the model's answer. *)
Inductive TaskId : Type :=
| IdInt (n : Z)
| IdStr (s : str).

(** A task dict [{"task_id": ..., "task_name": ...}]. *)
Record Task : Type := mkTask { task_id : TaskId; task_name : str }.

(** A dict [{"task_name": ...}] as [task_creation_agent] returns it, before
    the main loop adds the id. *)
Record NewTask : Type := mkNewTask { new_task_name : str }.

(** [new_task.update({"task_id": n})] *)
Definition update_task_id (new_task : NewTask) (n : Z) : Task :=
  {| task_id := IdInt n; task_name := new_task_name new_task |}.

(** The dict [{'data': result}] the main loop wraps a result in. *)
Record EnrichedResult : Type := mkEnriched { data : str }.

(** The metadata dict the main loop stores with every vector. *)
Record Metadata : Type := mkMetadata { task : str; result : str }.

(** One element of [results.matches] of an index query. The metadata of a
    record is the dict the main loop wrote with it, so [str(...)] of its
    [task] entry is that string. *)
Record Match : Type := mkMatch { match_id : str; score : Q; metadata : Metadata }.

(** The two OpenAI text endpoints [openai_call] chooses between, with the
    arguments that vary (the others are the constants of the source). *)
Inductive Request : Type :=
| Completion (engine prompt : str) (temperature : Q) (max_tokens : Z)
| ChatCompletion (model content : str) (temperature : Q) (max_tokens : Z).

Inductive Service : Type :=
| OpenAICompletion | OpenAIEmbedding | PineconeQuery | PineconeUpsert.

(** What can propagate out of an iteration: [int()] rejecting a [str], a
    failing service call, [popleft] on an empty deque. *)
Inductive Exn : Type :=
| ValueError (s : str)
| ServiceError (svc : Service) (detail : str)
| IndexError.

(** The answer of a service to one call. *)
Inductive Reply (A : Type) : Type :=
| Replied (a : A)
| Failed (detail : str).
Arguments Replied {A} a.
Arguments Failed {A} detail.

(** How a call ends: it returns a value or raises. *)
Inductive Outcome (A : Type) : Type :=
| Returned (a : A)
| Raised (e : Exn).
Arguments Returned {A} a.
Arguments Raised {A} e.

(** How a [while] loop stands after at most [fuel] turns: it left through
    its condition, an exception left it, or it is still turning. *)
Inductive LoopOutcome : Type :=
| Exited
| Uncaught (e : Exn)
| Running.

(** The process configuration computed before the loop starts. *)
Record Config : Type := mkConfig {
  OBJECTIVE : str;
  INITIAL_TASK : str;
  YOUR_TABLE_NAME : str;
  USE_GPT4 : bool
}.

(** Builtins of the interpreter the program relies on and that are not
    re-implemented here: [int(s)] on a [str] ([None] when it raises
    [ValueError]) and [repr(s)] of a [str]. *)
Class Builtins : Type := {
  int_of_str : str -> option Z;
  repr_str : str -> str
}.

(** The external services. [World] is their hidden state, [Vector] the type
    of an embedding. The text endpoints return the raw text of the first
    choice; the query returns [results.matches] in the order the index chose;
    [upsert_fault] says whether a write request goes through. *)
Class Services (World Vector : Type) : Type := {
  completion_create : Request -> World -> Reply str * World;
  embedding_create : str -> World -> Reply Vector * World;
  index_query :
    gmap (list N) (Vector * Metadata) -> str -> Vector -> Z -> World ->
    Reply (list Match) * World;
  upsert_fault : str -> Vector -> Metadata -> World -> option str * World
}.

(** Modelled from the spec: the write operation of the Memory Store,
    [upsert(index, id, vector, metadata)] of section 6, which the source
    reaches as [index.upsert] of the Pinecone client and whose code is not
    in the repository. Sections 3 and 4.1 give its contract: "upsert --
    create or overwrite", the record is keyed by its id, "re-execution of a
    colliding id overwrites the prior record". The store is a finite map
    from ids to records, and the write binds the id to the new record. *)
Definition store_upsert {Vector : Type} (id : str) (record : Vector * Metadata)
    (store : gmap (list N) (Vector * Metadata)) : gmap (list N) (Vector * Metadata) :=
  <[id := record]> store.

(* ===================================================================== *)
(** ** sorted(..., key=..., reverse=True) *)
(* ===================================================================== *)

Section Sorted.
Context {A : Type} (key : A -> Q).

(** Put [x], which stood before every element of [l] in the input, into
    the descending list [l]: after the strictly larger keys, before the
    equal ones. *)
Fixpoint insert_desc (x : A) (l : list A) : list A :=
  match l with
  | [] => [x]
  | y :: l' =>
      if Qle_bool (key y) (key x) then x :: y :: l'
      else y :: insert_desc x l'
  end.

(** [sorted(l, key=key, reverse=True)]: the list sort is stable, and with
    [reverse=True] elements with equal keys keep their input order. There is
    one such arrangement of a list ([sorted_reverse_unique] below); it is
    computed here by insertion from the right. *)
Definition sorted_reverse (l : list A) : list A :=
  fold_right insert_desc [] l.

(** [desc a b]: [a] may stand before [b] in a descending list. *)
Definition desc (a b : A) : Prop := (key b <= key a)%Q.

End Sorted.

(* ===================================================================== *)
(** ** The program *)
(* ===================================================================== *)

Section Program.
Context {World Vector : Type}.
Context {services : Services World Vector}.
Context {builtins : Builtins}.
Variable cfg : Config.

(** What the program does to the outside and to its queue, in order. *)
Inductive Event : Type :=
| EvPopLeft (t : Task)
| EvAddTask (t : Task)
| EvCompletion (r : Request)
| EvEmbedding (text : str)
| EvQuery (index_name : str) (v : Vector) (top_k : Z)
| EvUpsert (id : str) (v : Vector) (meta : Metadata)
| EvSleep (secs : Z).

(** The globals [task_list] and [task_id_counter], the content of the
    Pinecone index [table_name], the state of the services, and the log of
    events so far (oldest first). *)
Record State : Type := mkState {
  task_list : list Task;
  task_id_counter : Z;
  index : gmap (list N) (Vector * Metadata);
  world : World;
  calls : list Event
}.

Definition set_task_list (l : list Task) (st : State) : State :=
  {| task_list := l; task_id_counter := task_id_counter st;
     index := index st; world := world st; calls := calls st |}.
Definition set_task_id_counter (n : Z) (st : State) : State :=
  {| task_list := task_list st; task_id_counter := n;
     index := index st; world := world st; calls := calls st |}.
Definition set_index (i : gmap (list N) (Vector * Metadata)) (st : State) : State :=
  {| task_list := task_list st; task_id_counter := task_id_counter st;
     index := i; world := world st; calls := calls st |}.
Definition set_world (w : World) (st : State) : State :=
  {| task_list := task_list st; task_id_counter := task_id_counter st;
     index := index st; world := w; calls := calls st |}.
Definition log (e : Event) (st : State) : State :=
  {| task_list := task_list st; task_id_counter := task_id_counter st;
     index := index st; world := world st; calls := calls st ++ [e] |}.

(** *** State and exceptions *)

(** A computation returns or raises; the state it leaves behind is kept
    either way (an exception does not undo assignments to globals). *)
Definition M (A : Type) : Type := State -> Outcome A * State.

Definition ret {A} (a : A) : M A := fun st => (Returned a, st).
Definition raise {A} (e : Exn) : M A := fun st => (Raised e, st).
Definition bind {A B} (m : M A) (k : A -> M B) : M B :=
  fun st =>
    match m st with
    | (Returned a, st') => k a st'
    | (Raised e, st') => (Raised e, st')
    end.
Definition get : M State := fun st => (Returned st, st).
Definition modify (f : State -> State) : M unit := fun st => (Returned tt, f st).

Notation "'let!' x ':=' m 'in' k" := (bind m (fun x => k))
  (at level 10, x name, m at level 100, k at level 200).
Notation "'do!' m 'in' k" := (bind m (fun _ => k))
  (at level 10, m at level 100, k at level 200).

(** *** Calls to the services *)

Definition call_service {A} (svc : Service) (ev : Event)
    (f : World -> Reply A * World) : M A :=
  fun st =>
    let st := log ev st in
    match f (world st) with
    | (Replied a, w) => (Returned a, set_world w st)
    | (Failed detail, w) => (Raised (ServiceError svc detail), set_world w st)
    end.

(** [index.upsert([(id, v, meta)])]. The index is a service outside the
    program; its write is taken with the contract of the vector store
    ([store_upsert]): create the record [id] or overwrite the one that is
    there. A request that fails leaves the index as it was. *)
Definition index_upsert (id : str) (v : Vector) (meta : Metadata) : M unit :=
  fun st =>
    let st := log (EvUpsert id v meta) st in
    match upsert_fault id v meta (world st) with
    | (None, w) =>
        (Returned tt, set_index (store_upsert id (v, meta) (index st)) (set_world w st))
    | (Some detail, w) => (Raised (ServiceError PineconeUpsert detail), set_world w st)
    end.

(** [time.sleep(secs)] *)
Definition sleep (secs : Z) : M unit := modify (log (EvSleep secs)).

(** *** The queue *)

(** [add_task(task)] *)
Definition add_task (t : Task) : M unit :=
  modify (fun st => log (EvAddTask t) (set_task_list (task_list st ++ [t]) st)).

(** [task_list.popleft()] *)
Definition popleft : M Task :=
  fun st =>
    match task_list st with
    | [] => (Raised IndexError, st)
    | t :: rest => (Returned t, log (EvPopLeft t) (set_task_list rest st))
    end.

(** *** Helpers *)

(** [get_ada_embedding(text)] *)
Definition get_ada_embedding (text : str) : M Vector :=
  let text := replace NEWLINE SPACE text in
  call_service OpenAIEmbedding (EvEmbedding text) (embedding_create text).

(** [openai_call(prompt, use_gpt4, temperature, max_tokens)] *)
Definition openai_call (prompt : str) (use_gpt4 : bool)
    (temperature : Q) (max_tokens : Z) : M str :=
  if negb use_gpt4 then
    let request := Completion (py "text-davinci-003") prompt temperature max_tokens in
    let! text := call_service OpenAICompletion (EvCompletion request)
                   (completion_create request) in
    ret (strip text)
  else
    let request := ChatCompletion (py "gpt-4") prompt temperature max_tokens in
    let! content := call_service OpenAICompletion (EvCompletion request)
                      (completion_create request) in
    ret (strip content).

(** The defaults of [openai_call]. *)
Definition default_temperature : Q := 5 # 10.
Definition default_max_tokens : Z := 100.

(** How an f-string renders a list of [str] and the result dict. *)
Definition format_list (l : list str) : str :=
  py "[" ++ join (py ", ") (List.map repr_str l) ++ py "]".
Definition format_enriched (r : EnrichedResult) : str :=
  py "{'data': " ++ repr_str (data r) ++ py "}".
Definition format_task_id (i : TaskId) : str :=
  match i with
  | IdInt n => str_of_int n
  | IdStr s => s
  end.

(** [int(task["task_id"])] *)
Definition int_of_task_id (i : TaskId) : M Z :=
  match i with
  | IdInt n => ret n
  | IdStr s =>
      match int_of_str s with
      | Some n => ret n
      | None => raise (ValueError s)
      end
  end.

(** *** The agents *)

Definition task_creation_prompt (objective : str) (result : EnrichedResult)
    (task_description : str) (task_list : list str) : str :=
  py "You are an task creation AI that uses the result of an execution agent to create new tasks with the following objective: "
  ++ objective
  ++ py ", The last completed task has the result: "
  ++ format_enriched result
  ++ py ". This result was based on this task description: "
  ++ task_description
  ++ py ". These are incomplete tasks: "
  ++ join (py ", ") task_list
  ++ py ". Based on the result, create new tasks to be completed by the AI system that do not overlap with incomplete tasks. Return the tasks as an array.".

(** [task_creation_agent(objective, result, task_description, task_list)] *)
Definition task_creation_agent (objective : str) (result : EnrichedResult)
    (task_description : str) (task_list : list str) : M (list NewTask) :=
  let prompt := task_creation_prompt objective result task_description task_list in
  let! response := openai_call prompt (USE_GPT4 cfg) default_temperature default_max_tokens in
  let new_tasks := split NEWLINE response in
  ret (List.map mkNewTask new_tasks).

Definition prioritization_prompt (task_names : list str) (next_task_id : Z) : str :=
  py "You are an task prioritization AI tasked with cleaning the formatting of and reprioritizing the following tasks: "
  ++ format_list task_names
  ++ py ". Consider the ultimate objective of your team:"
  ++ OBJECTIVE cfg
  ++ py ". Do not remove any tasks. Return the result as a numbered list, like:"
  ++ [NEWLINE] ++ py "    #. First task"
  ++ [NEWLINE] ++ py "    #. Second task"
  ++ [NEWLINE] ++ py "    Start the task list with number "
  ++ str_of_int next_task_id ++ py ".".

(** One turn of the [for task_string in new_tasks] loop of
    [prioritization_agent], on the deque built so far. *)
Definition parse_task_string (queue : list Task) (task_string : str) : list Task :=
  let task_parts := split1 DOT (strip task_string) in
  if (length task_parts =? 2)%nat then
    let task_id := strip (nth 0 task_parts []) in
    let task_name := strip (nth 1 task_parts []) in
    queue ++ [{| task_id := IdStr task_id; task_name := task_name |}]
  else queue.

(** The deque [prioritization_agent] leaves in [task_list] for a response:
    it starts from an empty deque and runs the loop over the lines. *)
Definition parse_response (response : str) : list Task :=
  let new_tasks := split NEWLINE response in
  fold_left parse_task_string new_tasks [].

(** [prioritization_agent(this_task_id)] *)
Definition prioritization_agent (this_task_id : Z) : M unit :=
  let! st := get in
  let task_names := List.map task_name (task_list st) in
  let next_task_id := this_task_id + 1 in
  let prompt := prioritization_prompt task_names next_task_id in
  let! response := openai_call prompt (USE_GPT4 cfg) default_temperature default_max_tokens in
  modify (set_task_list (parse_response response)).

(** What [context_agent] makes of the matches of its query. *)
Definition context_of_matches (matches : list Match) : list str :=
  let sorted_results := sorted_reverse score matches in
  List.map (fun item => task (metadata item)) sorted_results.

(** [context_agent(query, index, n)] *)
Definition context_agent (query : str) (index_name : str) (n : Z) : M (list str) :=
  let! query_embedding := get_ada_embedding query in
  let! st := get in
  let! matches := call_service PineconeQuery (EvQuery index_name query_embedding n)
                    (index_query (index st) index_name query_embedding n) in
  ret (context_of_matches matches).

Definition execution_prompt (objective : str) (context : list str) (task : str) : str :=
  py "You are an AI who performs one task based on the following objective: "
  ++ objective ++ py "." ++ [NEWLINE]
  ++ py "Take into account these previously completed tasks: "
  ++ format_list context ++ [NEWLINE]
  ++ py "Your task: " ++ task ++ [NEWLINE]
  ++ py "Response:".

(** [execution_agent(objective, task)] *)
Definition execution_agent (objective : str) (task : str) : M str :=
  let! context := context_agent objective (YOUR_TABLE_NAME cfg) 5 in
  let prompt := execution_prompt objective context task in
  openai_call prompt (USE_GPT4 cfg) (7 # 10) 2000.

(** *** The main loop *)

(** The seed task and the state in which the loop is entered: the queue
    holds the seed task, the counter is 1. *)
Definition first_task : Task :=
  {| task_id := IdInt 1; task_name := INITIAL_TASK cfg |}.

Definition startup (idx : gmap (list N) (Vector * Metadata)) (w : World) : State :=
  let st := {| task_list := []; task_id_counter := 0; index := idx;
               world := w; calls := [] |} in
  set_task_id_counter 1 (snd (add_task first_task st)).

(** The [for new_task in new_tasks] loop. *)
Fixpoint add_new_tasks (new_tasks : list NewTask) : M unit :=
  match new_tasks with
  | [] => ret tt
  | new_task :: rest =>
      do! modify (fun st => set_task_id_counter (task_id_counter st + 1) st) in
      let! st := get in
      do! add_task (update_task_id new_task (task_id_counter st)) in
      add_new_tasks rest
  end.

(** The block under [if task_list:]. *)
Definition iteration : M unit :=
  (* Step 1: pull the first task *)
  let! task := popleft in
  let! result := execution_agent (OBJECTIVE cfg) (task_name task) in
  let! this_task_id := int_of_task_id (task_id task) in
  (* Step 2: enrich result and store in Pinecone *)
  let enriched_result := {| data := result |} in
  let result_id := py "result_" ++ format_task_id (task_id task) in
  let vector := data enriched_result in
  let! embedding := get_ada_embedding vector in
  do! index_upsert result_id embedding
        {| task := task_name task; result := result |} in
  (* Step 3: create new tasks and reprioritize task list *)
  let! st := get in
  let! new_tasks := task_creation_agent (OBJECTIVE cfg) enriched_result
                      (task_name task) (List.map task_name (task_list st)) in
  do! add_new_tasks new_tasks in
  prioritization_agent this_task_id.

(** The body of [while True:]. *)
Definition loop_body : M unit :=
  let! st := get in
  do! match task_list st with
      | [] => ret tt
      | _ :: _ => iteration
      end in
  sleep 1.

Fixpoint while (cond : State -> bool) (body : M unit) (fuel : nat)
    (st : State) : LoopOutcome * State :=
  match fuel with
  | O => (Running, st)
  | S fuel' =>
      if cond st then
        match body st with
        | (Returned _, st') => while cond body fuel' st'
        | (Raised e, st') => (Uncaught e, st')
        end
      else (Exited, st)
  end.

(** [while True: ...] *)
Definition main_loop : nat -> State -> LoopOutcome * State :=
  while (fun _ => true) loop_body.

End Program.

(* ===================================================================== *)
(** ** Configuration *)
(* ===================================================================== *)

(** [os.getenv(key, default)] on the process environment. *)
Definition getenv (environ : gmap (list N) (list N)) (key default : str) : str :=
  match environ !! key with
  | Some value => value
  | None => default
  end.

(** [not s] for a [str]. *)
Definition is_empty (s : str) : bool :=
  match s with
  | [] => true
  | _ :: _ => false
  end.

(** The namespace [parser.parse_args()] returned. *)
Record Args : Type := mkArgs {
  args_objective : list str;
  args_name : str;
  args_task : str;
  args_join : bool;
  args_use_gpt4 : bool
}.

(** The four places where the script leaves through [parser.exit()]. *)
Inductive ExitReason : Type :=
| MissingName
| MissingPackage
| MissingObjective
| MissingInitialTask.

(** How the code before the main loop ends: an [assert] on an environment
    variable fails, the script prints a message and exits, or the globals
    are set and the loop is entered. *)
Inductive Startup : Type :=
| AssertionError (variable : str)
| ParserExit (why : ExitReason)
| Started (BABY_NAME : str) (JOIN_EXISTING_OBJECTIVE : bool) (cfg : Config).

(** The module-level code up to the configuration banner: the asserts on
    the environment, then the checks on the parsed arguments.
    [can_import_ray] is what [can_import("ray")] returns. *)
Definition configure (environ : gmap (list N) (list N)) (args : Args)
    (can_import_ray : bool) : Startup :=
  let OPENAI_API_KEY := getenv environ (py "OPENAI_API_KEY") [] in
  if is_empty OPENAI_API_KEY then AssertionError (py "OPENAI_API_KEY") else
  let PINECONE_API_KEY := getenv environ (py "PINECONE_API_KEY") [] in
  if is_empty PINECONE_API_KEY then AssertionError (py "PINECONE_API_KEY") else
  let PINECONE_ENVIRONMENT :=
    getenv environ (py "PINECONE_ENVIRONMENT") (py "us-east1-gcp") in
  if is_empty PINECONE_ENVIRONMENT then AssertionError (py "PINECONE_ENVIRONMENT") else
  let YOUR_TABLE_NAME := getenv environ (py "TABLE_NAME") [] in
  if is_empty YOUR_TABLE_NAME then AssertionError (py "TABLE_NAME") else
  let BABY_NAME := args_name args in
  if is_empty BABY_NAME then ParserExit MissingName else
  let JOIN_EXISTING_OBJECTIVE := args_join args in
  if JOIN_EXISTING_OBJECTIVE && negb can_import_ray then ParserExit MissingPackage else
  let USE_GPT4 := args_use_gpt4 args in
  let OBJECTIVE := strip (join (py " ") (args_objective args)) in
  if is_empty OBJECTIVE then ParserExit MissingObjective else
  let INITIAL_TASK := args_task args in
  if is_empty INITIAL_TASK && negb JOIN_EXISTING_OBJECTIVE
  then ParserExit MissingInitialTask else
  Started BABY_NAME JOIN_EXISTING_OBJECTIVE
    {| OBJECTIVE := OBJECTIVE; INITIAL_TASK := INITIAL_TASK;
       YOUR_TABLE_NAME := YOUR_TABLE_NAME; USE_GPT4 := USE_GPT4 |}.

(* ===================================================================== *)
(** ** A scripted world, to run the program *)
(* ===================================================================== *)

Module Mock.

(** The model answers with the next scripted reply (and fails when the
    script is over), the embedding of a text is the text, a query returns
    the scripted matches, a write fails as the script says. *)
Record World : Type := mkWorld {
  replies : list (Reply str);
  found : list Match;
  faults : list (option str)
}.

#[export] Instance services : Services World (list N) := {|
  completion_create _ w :=
    match replies w with
    | [] => (Failed (py "script over"), w)
    | r :: rest => (r, {| replies := rest; found := found w; faults := faults w |})
    end;
  embedding_create text w := (Replied text, w);
  index_query _ _ _ _ w := (Replied (found w), w);
  upsert_fault _ _ _ w :=
    match faults w with
    | [] => (None, w)
    | f :: rest => (f, {| replies := replies w; found := found w; faults := rest |})
    end
|}.

(** [int] on a plain decimal numeral with an optional sign, [repr] by
    single quotes: they agree with the interpreter on plain numerals and on
    printable text without quotes or backslashes, which is all the runs
    below use. *)
Fixpoint digits (acc : Z) (s : str) : option Z :=
  match s with
  | [] => Some acc
  | c :: s' =>
      if ((48 <=? c) && (c <=? 57))%N then digits (10 * acc + Z.of_N (c - 48)) s'
      else None
  end.

Definition int_plain (s : str) : option Z :=
  match s with
  | [] => None
  | 45%N :: (_ :: _) as s' => option_map Z.opp (digits 0 s')
  | 43%N :: (_ :: _) as s' => digits 0 s'
  | 45%N :: [] | 43%N :: [] => None
  | _ => digits 0 s
  end.

#[export] Instance builtins : Builtins := {|
  int_of_str := int_plain;
  repr_str s := py "'" ++ s ++ py "'"
|}.

Definition poem : Config := {|
  OBJECTIVE := py "Write a poem";
  INITIAL_TASK := py "Draft first stanza";
  YOUR_TABLE_NAME := py "tasks";
  USE_GPT4 := false
|}.

(** The run of the example: the execution agent answers with a line of
    verse, the creation agent with two tasks, the prioritization agent with
    these tasks renumbered from 2 on. *)
Definition poem_world : World := {|
  replies :=
    [Replied (py "Roses are red...");
     Replied (py "Write second stanza" ++ [NEWLINE] ++ py "Pick a title");
     Replied (py "2. Pick a title" ++ [NEWLINE] ++ py "3. Write second stanza")];
  found := [];
  faults := []
|}.

Definition poem_start : @State World (list N) :=
  startup poem (∅ : gmap (list N) (list N * Metadata)) poem_world.

(** The same run with an index that refuses the write. *)
Definition refusing_start : @State World (list N) :=
  startup poem (∅ : gmap (list N) (list N * Metadata))
    {| replies := replies poem_world; found := [];
       faults := [Some (py "unavailable")] |}.

(** A queue whose first task got the id ["one"] from the model. *)
Definition unparsable_task : Task :=
  {| task_id := IdStr (py "one"); task_name := py "Pick a title" |}.

Definition unparsable_start : @State World (list N) := {|
  task_list := [unparsable_task];
  task_id_counter := 3;
  index := ∅;
  world := {| replies := [Replied (py "A title")]; found := []; faults := [] |};
  calls := []
|}.

(** A queue whose first task got the id ["2"] from the model, on an index
    that already holds a record under ["result_2"]. *)
Definition renumbered_task : Task :=
  {| task_id := IdStr (py "2"); task_name := py "Pick a title" |}.

Definition renumbered_start : @State World (list N) := {|
  task_list := [renumbered_task];
  task_id_counter := 3;
  index := {[ py "result_2" :=
                (py "Two lines",
                 {| task := py "Write second stanza"; result := py "Two lines" |}) ]};
  world := {| replies := [Replied (py "A Rose"); Replied (py "Print it");
                          Replied (py "3. Print it")];
              found := []; faults := [] |};
  calls := []
|}.

(** An index that answers with three matches, not in the order of their
    scores. *)
Definition scored_matches : list Match :=
  [ {| match_id := py "result_1"; score := 1 # 2;
       metadata := {| task := py "a"; result := py "ra" |} |};
    {| match_id := py "result_2"; score := 9 # 10;
       metadata := {| task := py "b"; result := py "rb" |} |};
    {| match_id := py "result_3"; score := 1 # 2;
       metadata := {| task := py "c"; result := py "rc" |} |} ].

Definition scored_start : @State World (list N) := {|
  task_list := [];
  task_id_counter := 1;
  index := ∅;
  world := {| replies := []; found := scored_matches; faults := [] |};
  calls := []
|}.

(** Matches that the index already returns by descending score. *)
Definition ordered_matches : list Match :=
  [ {| match_id := py "result_2"; score := 9 # 10;
       metadata := {| task := py "b"; result := py "rb" |} |};
    {| match_id := py "result_1"; score := 1 # 2;
       metadata := {| task := py "a"; result := py "ra" |} |};
    {| match_id := py "result_3"; score := 1 # 2;
       metadata := {| task := py "c"; result := py "rc" |} |} ].

(** The state of the example run when the prioritization agent is called,
    with a model that answers without any numbered line. *)
Definition unnumbered_start : @State World (list N) := {|
  task_list := [ {| task_id := IdInt 2; task_name := py "Write second stanza" |} ];
  task_id_counter := 2;
  index := ∅;
  world := {| replies := [Replied (py "Nothing left to do")]; found := [];
              faults := [] |};
  calls := []
|}.

(** An environment and two argument namespaces: a plain start, and a join
    without an initial task. *)
Definition environ : gmap (list N) (list N) :=
  <[py "OPENAI_API_KEY" := py "sk"]>
    (<[py "PINECONE_API_KEY" := py "pk"]> (<[py "TABLE_NAME" := py "tasks"]> ∅)).

Definition plain_args : Args := {|
  args_objective := [py "Write"; py "a"; py "poem"];
  args_name := py "BabyAGI";
  args_task := py "Draft first stanza";
  args_join := false;
  args_use_gpt4 := false
|}.

Definition join_args : Args := {|
  args_objective := [py "Write"; py "a"; py "poem"];
  args_name := py "BabyAGI";
  args_task := [];
  args_join := true;
  args_use_gpt4 := false
|}.

End Mock.

(* ===================================================================== *)
(** ** Vocabulary of the statements *)
(* ===================================================================== *)

Section Facts.
Context {World Vector : Type}.
Context {services : Services World Vector}.
Context {builtins : Builtins}.
Variable cfg : Config.

Local Abbreviation St := (@State World Vector).
Local Abbreviation Ev := (@Event Vector).

(** The request [openai_call] sends. *)
Definition openai_request (use_gpt4 : bool) (prompt : str)
    (temperature : Q) (max_tokens : Z) : Request :=
  if negb use_gpt4 then Completion (py "text-davinci-003") prompt temperature max_tokens
  else ChatCompletion (py "gpt-4") prompt temperature max_tokens.

(** The record the main loop writes for the task [t] with result [r]. *)
Definition result_id (t : Task) : str := py "result_" ++ format_task_id (task_id t).
Definition result_metadata (t : Task) (r : str) : Metadata :=
  {| task := task_name t; result := r |}.

(** The tasks the main loop makes of [new_tasks] when the counter stands at
    [counter]: the first gets [counter + 1], the next [counter + 2], ... *)
Fixpoint number_tasks (counter : Z) (new_tasks : list NewTask) : list Task :=
  match new_tasks with
  | [] => []
  | new_task :: rest =>
      update_task_id new_task (counter + 1) :: number_tasks (counter + 1) rest
  end.

(** The events of the stages of an iteration on the task [t]. *)
Definition ev_context_embedding : Ev :=
  EvEmbedding (replace NEWLINE SPACE (OBJECTIVE cfg)).
Definition ev_context_query (qv : Vector) : Ev :=
  EvQuery (YOUR_TABLE_NAME cfg) qv 5.
Definition ev_execution (t : Task) (context : list str) : Ev :=
  EvCompletion (openai_request (USE_GPT4 cfg)
                  (execution_prompt (OBJECTIVE cfg) context (task_name t)) (7 # 10) 2000).
Definition ev_result_embedding (r : str) : Ev :=
  EvEmbedding (replace NEWLINE SPACE r).
Definition ev_storing (t : Task) (r : str) (v : Vector) : Ev :=
  EvUpsert (result_id t) v (result_metadata t r).
Definition ev_creation (t : Task) (r : str) (queue : list Task) : Ev :=
  EvCompletion (openai_request (USE_GPT4 cfg)
                  (task_creation_prompt (OBJECTIVE cfg) {| data := r |} (task_name t)
                     (List.map task_name queue))
                  default_temperature default_max_tokens).
Definition ev_prioritization (queue : list Task) (this_task_id : Z) : Ev :=
  EvCompletion (openai_request (USE_GPT4 cfg)
                  (prioritization_prompt cfg (List.map task_name queue) (this_task_id + 1))
                  default_temperature default_max_tokens).

(** [int(task["task_id"])] as a partial function. *)
Definition int_value (i : TaskId) : option Z :=
  match i with
  | IdInt n => Some n
  | IdStr s => int_of_str s
  end.

(** The execution agent, called right after [t] was taken off the queue
    [t :: rest] in [st], returns [r]. *)
Definition executed (st : St) (t : Task) (rest : list Task) (r : str) : Prop :=
  fst (execution_agent cfg (OBJECTIVE cfg) (task_name t)
         (log (EvPopLeft t) (set_task_list rest st))) = Returned r.

(** The same call raises [e]. *)
Definition execution_raised (st : St) (t : Task) (rest : list Task) (e : Exn) : Prop :=
  fst (execution_agent cfg (OBJECTIVE cfg) (task_name t)
         (log (EvPopLeft t) (set_task_list rest st))) = Raised e.

(** The ways an iteration on the queue [t :: rest], started in [st], can
    end, with the events it adds to the log and the globals and the index it
    leaves. The stages are those of the loop: context, execution, conversion
    of the id, storing, creation, appending, prioritization. *)
Inductive iteration_run (st : St) (t : Task) (rest : list Task) :
    Outcome unit -> St -> Prop :=
| FailedContextEmbedding detail st' :
    execution_raised st t rest (ServiceError OpenAIEmbedding detail) ->
    calls st' = calls st ++ [EvPopLeft t; ev_context_embedding] ->
    task_list st' = rest -> task_id_counter st' = task_id_counter st ->
    index st' = index st ->
    iteration_run st t rest (Raised (ServiceError OpenAIEmbedding detail)) st'
| FailedContextQuery detail qv st' :
    execution_raised st t rest (ServiceError PineconeQuery detail) ->
    calls st' = calls st ++ [EvPopLeft t; ev_context_embedding; ev_context_query qv] ->
    task_list st' = rest -> task_id_counter st' = task_id_counter st ->
    index st' = index st ->
    iteration_run st t rest (Raised (ServiceError PineconeQuery detail)) st'
| FailedExecution detail qv context st' :
    execution_raised st t rest (ServiceError OpenAICompletion detail) ->
    calls st' = calls st ++ [EvPopLeft t; ev_context_embedding; ev_context_query qv;
                             ev_execution t context] ->
    task_list st' = rest -> task_id_counter st' = task_id_counter st ->
    index st' = index st ->
    iteration_run st t rest (Raised (ServiceError OpenAICompletion detail)) st'
| FailedConversion s qv context (r : str) st' :
    executed st t rest r ->
    task_id t = IdStr s -> int_of_str s = None ->
    calls st' = calls st ++ [EvPopLeft t; ev_context_embedding; ev_context_query qv;
                             ev_execution t context] ->
    task_list st' = rest -> task_id_counter st' = task_id_counter st ->
    index st' = index st ->
    iteration_run st t rest (Raised (ValueError s)) st'
| FailedResultEmbedding detail qv context r n st' :
    executed st t rest r ->
    int_value (task_id t) = Some n ->
    calls st' = calls st ++ [EvPopLeft t; ev_context_embedding; ev_context_query qv;
                             ev_execution t context; ev_result_embedding r] ->
    task_list st' = rest -> task_id_counter st' = task_id_counter st ->
    index st' = index st ->
    iteration_run st t rest (Raised (ServiceError OpenAIEmbedding detail)) st'
| FailedStoring detail qv context r n v st' :
    executed st t rest r ->
    int_value (task_id t) = Some n ->
    calls st' = calls st ++ [EvPopLeft t; ev_context_embedding; ev_context_query qv;
                             ev_execution t context; ev_result_embedding r;
                             ev_storing t r v] ->
    task_list st' = rest -> task_id_counter st' = task_id_counter st ->
    index st' = index st ->
    iteration_run st t rest (Raised (ServiceError PineconeUpsert detail)) st'
| FailedCreation detail qv context r n v st' :
    executed st t rest r ->
    int_value (task_id t) = Some n ->
    calls st' = calls st ++ [EvPopLeft t; ev_context_embedding; ev_context_query qv;
                             ev_execution t context; ev_result_embedding r;
                             ev_storing t r v; ev_creation t r rest] ->
    task_list st' = rest -> task_id_counter st' = task_id_counter st ->
    index st' = <[result_id t := (v, result_metadata t r)]> (index st) ->
    iteration_run st t rest (Raised (ServiceError OpenAICompletion detail)) st'
| FailedPrioritization detail qv context r n v new_tasks st' :
    executed st t rest r ->
    int_value (task_id t) = Some n ->
    let added := number_tasks (task_id_counter st) new_tasks in
    calls st' = calls st ++ [EvPopLeft t; ev_context_embedding; ev_context_query qv;
                             ev_execution t context; ev_result_embedding r;
                             ev_storing t r v; ev_creation t r rest]
                         ++ List.map EvAddTask added
                         ++ [ev_prioritization (rest ++ added) n] ->
    task_list st' = rest ++ added ->
    task_id_counter st' = task_id_counter st + Z.of_nat (length new_tasks) ->
    index st' = <[result_id t := (v, result_metadata t r)]> (index st) ->
    iteration_run st t rest (Raised (ServiceError OpenAICompletion detail)) st'
| Completed qv context r n v new_tasks response st' :
    executed st t rest r ->
    int_value (task_id t) = Some n ->
    let added := number_tasks (task_id_counter st) new_tasks in
    calls st' = calls st ++ [EvPopLeft t; ev_context_embedding; ev_context_query qv;
                             ev_execution t context; ev_result_embedding r;
                             ev_storing t r v; ev_creation t r rest]
                         ++ List.map EvAddTask added
                         ++ [ev_prioritization (rest ++ added) n] ->
    task_list st' = parse_response response ->
    task_id_counter st' = task_id_counter st + Z.of_nat (length new_tasks) ->
    index st' = <[result_id t := (v, result_metadata t r)]> (index st) ->
    iteration_run st t rest (Returned tt) st'.

(** *** The order of the steps *)

Definition is_execution_call (t : Task) (e : Ev) : Prop :=
  exists context, e = ev_execution t context.
Definition is_creation_call (t : Task) (rest : list Task) (e : Ev) : Prop :=
  exists r, e = ev_creation t r rest.
Definition is_add_task (e : Ev) : Prop :=
  exists t', e = EvAddTask t'.

(** The events that need the result to be stored first. *)
Definition needs_storing (t : Task) (rest : list Task) (e : Ev) : Prop :=
  is_creation_call t rest e \/ is_add_task e.

(** *** The ids the main loop hands out *)

(** The ids of the tasks [add_task] appended, oldest first. *)
Fixpoint assigned_ids (evs : list Ev) : list TaskId :=
  match evs with
  | [] => []
  | EvAddTask t :: evs' => task_id t :: assigned_ids evs'
  | _ :: evs' => assigned_ids evs'
  end.



(** *** Further vocabulary *)

(** [s] has no white space at either end. *)
Definition stripped (s : str) : Prop := lstrip s = s /\ rstrip s = s.

(** [s.startswith(p)] *)
Fixpoint starts_with (p s : str) : bool :=
  match p, s with
  | [], _ => true
  | a :: p', b :: s' => (a =? b)%N && starts_with p' s'
  | _ :: _, [] => false
  end.

(** A line of the numbered list the prioritization prompt asks for. *)
Definition format_line (id name : str) : str := id ++ py ". " ++ name.

(** Kinds of events, to count them. *)
Definition is_completion (e : Ev) : bool :=
  match e with EvCompletion _ => true | _ => false end.
Definition is_embedding (e : Ev) : bool :=
  match e with EvEmbedding _ => true | _ => false end.
Definition is_query (e : Ev) : bool :=
  match e with EvQuery _ _ _ => true | _ => false end.
Definition is_upsert (e : Ev) : bool :=
  match e with EvUpsert _ _ _ => true | _ => false end.
Definition is_sleep (e : Ev) : bool :=
  match e with EvSleep _ => true | _ => false end.
Definition count_events (kind : Ev -> bool) (evs : list Ev) : nat :=
  length (List.filter kind evs).

(** The queue, the counter and the index are the same in both states. *)
Definition same_globals (st st' : St) : Prop :=
  task_list st' = task_list st
  /\ task_id_counter st' = task_id_counter st
  /\ index st' = index st.

(** No record of [before] is missing in [after], and the records whose id
    does not start with ["result_"] are the same. *)
Definition index_kept (before after : gmap (list N) (Vector * Metadata)) : Prop :=
  (forall id, is_Some (before !! id) -> is_Some (after !! id))
  /\ (forall id, starts_with (py "result_") id = false -> after !! id = before !! id).

(* ===================================================================== *)
(** ** Strings: splitting and stripping *)
(* ===================================================================== *)


Lemma contains_app (sep : N) (s t : str) :
  contains sep (s ++ t) = contains sep s || contains sep t.
Proof. unfold contains. apply existsb_app. Qed.

Lemma contains_rev (sep : N) (s : str) :
  contains sep (rev s) = contains sep s.
Proof.
  induction s as [|c s IH]; [reflexivity|].
  simpl rev. rewrite contains_app, IH. simpl.
  rewrite orb_false_r. apply orb_comm.
Qed.

(** Stripping removes white space only. *)
Lemma contains_lstrip (sep : N) (s : str) :
  isspace sep = false -> contains sep (lstrip s) = contains sep s.
Proof.
  intros Hsep. induction s as [|c s IH]; [reflexivity|].
  simpl. destruct (isspace c) eqn:Hc; [|reflexivity].
  rewrite IH. destruct (N.eqb_spec c sep) as [->|]; [congruence|reflexivity].
Qed.

Lemma contains_strip (sep : N) (s : str) :
  isspace sep = false -> contains sep (strip s) = contains sep s.
Proof.
  intros Hsep. unfold strip, rstrip.
  rewrite contains_rev, contains_lstrip, contains_rev by assumption.
  now apply contains_lstrip.
Qed.

Lemma split_nonempty (sep : N) (s : str) : split sep s <> [].
Proof.
  induction s as [|c s IH]; simpl; [discriminate|].
  destruct (c =? sep)%N; [discriminate|].
  destruct (split sep s); [contradiction|discriminate].
Qed.

(** The number of fields of [s.split(sep)] is one more than the number of
    separators in [s]. *)
Lemma length_split (sep : N) (s : str) :
  length (split sep s) = S (count_occ N.eq_dec s sep).
Proof.
  induction s as [|c s IH]; [reflexivity|].
  simpl. destruct (N.eqb_spec c sep) as [->|Hne].
  - destruct (N.eq_dec sep sep); [|contradiction]. simpl. now rewrite IH.
  - destruct (N.eq_dec c sep); [contradiction|].
    rewrite <- IH. pose proof (split_nonempty sep s).
    destruct (split sep s); [contradiction|reflexivity].
Qed.

(** No field of [s.split(sep)] contains the separator. *)
Lemma split_fields (sep : N) (s : str) :
  Forall (fun field => contains sep field = false) (split sep s).
Proof.
  induction s as [|c s IH]; simpl.
  - repeat constructor.
  - destruct (N.eqb_spec c sep) as [->|Hne].
    + constructor; [reflexivity|assumption].
    + apply N.eqb_neq in Hne.
      destruct (split sep s) as [|f fs].
      * repeat constructor. simpl. now rewrite Hne.
      * inversion IH; subst. constructor; [|assumption].
        simpl. now rewrite Hne.
Qed.

(** Joining the fields with the separator gives the string back. *)
Lemma join_split (sep : N) (s : str) : join [sep] (split sep s) = s.
Proof.
  induction s as [|c s IH]; [reflexivity|].
  simpl split. pose proof (split_nonempty sep s) as Hne.
  destruct (N.eqb_spec c sep) as [->|_].
  - destruct (split sep s) as [|f fs]; [contradiction|].
    change (join [sep] ([] :: f :: fs)) with ([] ++ [sep] ++ join [sep] (f :: fs)).
    now rewrite IH.
  - destruct (split sep s) as [|f fs]; [contradiction|].
    destruct fs as [|g gs]; simpl in *; now rewrite IH.
Qed.

Lemma split1_absent (sep : N) (s : str) :
  contains sep s = false -> split1 sep s = [s].
Proof.
  induction s as [|c s IH]; [reflexivity|].
  simpl. destruct (c =? sep)%N; [discriminate|].
  simpl. intros H. now rewrite IH.
Qed.

Lemma split1_at (sep : N) (before after : str) :
  contains sep before = false ->
  split1 sep (before ++ sep :: after) = [before; after].
Proof.
  induction before as [|c s IH]; simpl.
  - now rewrite N.eqb_refl.
  - destruct (c =? sep)%N; [discriminate|].
    simpl. intros H. now rewrite IH.
Qed.

(** A string that contains [sep] is cut at the first [sep]. *)
Lemma contains_first (sep : N) (s : str) :
  contains sep s = true ->
  exists before after,
    s = before ++ sep :: after /\ contains sep before = false.
Proof.
  induction s as [|c s IH]; [discriminate|].
  simpl. destruct (N.eqb_spec c sep) as [->|Hne].
  - intros _. now exists [], s.
  - simpl. intros H. destruct (IH H) as (b & a & -> & Hb).
    exists (c :: b), a. split; [reflexivity|].
    simpl. apply N.eqb_neq in Hne. now rewrite Hne.
Qed.

Lemma replace_free (old new : N) (s : str) :
  old <> new -> contains old (replace old new s) = false.
Proof.
  intros Hne. induction s as [|c s IH]; [reflexivity|].
  simpl. rewrite IH, orb_false_r.
  destruct (N.eqb_spec c old) as [->|Hc].
  - apply N.eqb_neq. congruence.
  - now apply N.eqb_neq.
Qed.

Lemma contains_In (sep : N) (s : str) :
  contains sep s = false <-> ~ In sep s.
Proof.
  unfold contains. split.
  - intros H Hin. assert (existsb (fun c => (c =? sep)%N) s = true) as E.
    { apply existsb_exists. exists sep. split; [assumption|apply N.eqb_refl]. }
    congruence.
  - intros H. destruct (existsb _ s) eqn:E; [|reflexivity].
    apply existsb_exists in E as (c & Hc & Heq).
    apply N.eqb_eq in Heq. subst. contradiction.
Qed.


(* ===================================================================== *)
(** ** What stripping removes, and how an int is rendered *)
(* ===================================================================== *)

Lemma contains_true_In (sep : N) (s : str) :
  contains sep s = true <-> In sep s.
Proof.
  unfold contains. rewrite existsb_exists. split.
  - intros (c & Hc & Heq). apply N.eqb_eq in Heq. now subst.
  - intros H. exists sep. split; [assumption|apply N.eqb_refl].
Qed.

(** [lstrip] cuts a run of white space off the front and stops at the first
    character that is none. *)
Lemma lstrip_cut (s : str) :
  exists pre, s = pre ++ lstrip s /\ Forall (fun c => isspace c = true) pre.
Proof.
  induction s as [|c s (pre & Hs & Hpre)].
  - now exists [].
  - simpl. destruct (isspace c) eqn:Hc.
    + exists (c :: pre). split; [simpl; now f_equal|now constructor].
    + now exists [].
Qed.

Lemma lstrip_first (s : str) (c : N) (rest : str) :
  lstrip s = c :: rest -> isspace c = false.
Proof.
  induction s as [|x s IH]; [discriminate|].
  simpl. destruct (isspace x) eqn:Hx; [exact IH|].
  intros [= <- _]. exact Hx.
Qed.

(** [strip] cuts white space off both ends and nothing else. *)
Lemma strip_cut (s : str) :
  exists pre post,
    s = pre ++ strip s ++ post
    /\ Forall (fun c => isspace c = true) pre
    /\ Forall (fun c => isspace c = true) post.
Proof.
  destruct (lstrip_cut s) as (pre & Hs & Hpre).
  destruct (lstrip_cut (rev (lstrip s))) as (q & Hq & Hqs).
  exists pre, (rev q). split; [|split; [assumption|now apply List.Forall_rev]].
  unfold strip, rstrip. rewrite <- rev_app_distr, <- Hq, rev_involutive. exact Hs.
Qed.

Lemma strip_first (s : str) (c : N) (rest : str) :
  strip s = c :: rest -> isspace c = false.
Proof.
  intros H. destruct (lstrip_cut (rev (lstrip s))) as (q & Hq & _).
  apply (f_equal (@rev N)) in Hq. rewrite rev_involutive, rev_app_distr in Hq.
  change (rev (lstrip (rev (lstrip s)))) with (strip s) in Hq.
  rewrite H in Hq. simpl in Hq. now apply lstrip_first in Hq.
Qed.

Lemma strip_last (s : str) (init : str) (c : N) :
  strip s = init ++ [c] -> isspace c = false.
Proof.
  unfold strip, rstrip. intros H.
  apply (f_equal (@rev N)) in H. rewrite rev_involutive, rev_app_distr in H.
  simpl in H. now apply lstrip_first in H.
Qed.

(** [str(n)] is a decimal numeral that reads back as [n]. *)
Lemma str_of_int_numeral (n : Z) :
  exists numeral : string,
    str_of_int n = py numeral
    /\ option_map Z.of_int (NilZero.int_of_string numeral) = Some n.
Proof.
  exists (NilZero.string_of_int (Z.to_int n)). split; [reflexivity|].
  rewrite NilZero.isi.
  - simpl. now rewrite DecimalZ.of_to.
  - destruct n; simpl; try discriminate.
    intros [= H]. now apply DecimalPos.Unsigned.to_uint_nonnil in H.
  - destruct n; simpl; try discriminate.
    intros [= H]. now apply DecimalPos.Unsigned.to_uint_nonnil in H.
Qed.

(* ===================================================================== *)
(** ** The parsers of the two list-producing agents *)
(* ===================================================================== *)

Lemma parse_task_string_app (queue : list Task) (task_string : str) :
  parse_task_string queue task_string = queue ++ parse_task_string [] task_string.
Proof.
  unfold parse_task_string.
  destruct (length (split1 DOT (strip task_string)) =? 2)%nat;
    [reflexivity | now rewrite app_nil_r].
Qed.

Lemma fold_parse_task_string (lines : list str) (queue : list Task) :
  fold_left parse_task_string lines queue
  = queue ++ concat (List.map (parse_task_string []) lines).
Proof.
  revert queue. induction lines as [|l lines IH]; intros queue; simpl.
  - now rewrite app_nil_r.
  - rewrite IH, (parse_task_string_app queue l). now rewrite app_assoc.
Qed.

Lemma parse_line_without_dot (line : str) :
  contains DOT line = false -> parse_task_string [] line = [].
Proof.
  intros H. unfold parse_task_string.
  rewrite split1_absent; [reflexivity|].
  now rewrite contains_strip.
Qed.

Lemma parse_line_with_dot (line : str) :
  contains DOT line = true ->
  exists before after,
    strip line = before ++ DOT :: after
    /\ contains DOT before = false
    /\ parse_task_string [] line
       = [{| task_id := IdStr (strip before); task_name := strip after |}].
Proof.
  intros H. rewrite <- (contains_strip DOT line) in H by reflexivity.
  destruct (contains_first DOT _ H) as (before & after & Hcut & Hb).
  exists before, after. repeat split; try assumption.
  unfold parse_task_string. rewrite Hcut, split1_at by assumption.
  reflexivity.
Qed.

Lemma length_parse_line (line : str) :
  length (parse_task_string [] line) = if contains DOT line then 1%nat else 0%nat.
Proof.
  destruct (contains DOT line) eqn:H.
  - destruct (parse_line_with_dot line H) as (b & a & _ & _ & ->). reflexivity.
  - now rewrite parse_line_without_dot.
Qed.

Lemma length_parse_lines (lines : list str) :
  length (concat (List.map (parse_task_string []) lines))
  = length (List.filter (contains DOT) lines).
Proof.
  induction lines as [|l lines IH]; [reflexivity|].
  simpl. rewrite length_app, IH, length_parse_line.
  destruct (contains DOT l); reflexivity.
Qed.


(** C1. The queue [prioritization_agent] leaves is the parse of the text
    [openai_call] returned. The text is cut at the line breaks: the lines
    have no line break in them and, joined by line breaks, give the text
    back, so there is one more line than there are line breaks. Stripping
    a line cuts white space off its two ends and nothing else. Every line
    without a ['.'] gives nothing, every line with one gives the task whose
    id is the stripped text before the first ['.'] of the stripped line and
    whose name is the stripped text after it; so the queue has as many
    tasks as there are lines with a ['.'], at most the number of lines. *)
Theorem prioritization_agent_parses_lines (this_task_id : Z) (st : St) (response : str) :
  let prompt :=
    prioritization_prompt cfg (List.map task_name (task_list st)) (this_task_id + 1) in
  let lines := split NEWLINE response in
  match openai_call prompt (USE_GPT4 cfg) default_temperature default_max_tokens st with
  | (Returned text, st1) =>
      prioritization_agent cfg this_task_id st
      = (Returned tt, set_task_list (parse_response text) st1)
  | (Raised e, st1) =>
      prioritization_agent cfg this_task_id st = (Raised e, st1)
  end
  /\ parse_response response = concat (List.map (parse_task_string []) lines)
  /\ (forall line, contains DOT line = false -> parse_task_string [] line = [])
  /\ (forall line, contains DOT line = true ->
        exists before after,
          strip line = before ++ DOT :: after
          /\ contains DOT before = false
          /\ parse_task_string [] line
             = [{| task_id := IdStr (strip before); task_name := strip after |}])
  /\ length (parse_response response) = length (List.filter (contains DOT) lines)
  /\ (length (parse_response response) <= length lines)%nat
  /\ parse_response (py "3. Clean the kitchen")
     = [{| task_id := IdStr (py "3"); task_name := py "Clean the kitchen" |}]
  /\ parse_response (py "no period here") = []
  /\ join [NEWLINE] lines = response
  /\ Forall (fun line => ~ In NEWLINE line) lines
  /\ length lines = S (count_occ N.eq_dec response NEWLINE)
  /\ (forall (c : N) (s : str), contains c s = true <-> In c s)
  /\ (forall s : str,
        exists pre post,
          s = pre ++ strip s ++ post
          /\ Forall (fun c => isspace c = true) pre
          /\ Forall (fun c => isspace c = true) post)
  /\ (forall (s : str) (c : N) (rest : str),
        strip s = c :: rest -> isspace c = false)
  /\ (forall (s init : str) (c : N),
        strip s = init ++ [c] -> isspace c = false)
  /\ parse_response
       (py "3. Clean the kitchen" ++ [NEWLINE] ++ py "no period here"
        ++ [NEWLINE] ++ py "  4 . Cook. Eat  " ++ [NEWLINE])
     = [ {| task_id := IdStr (py "3"); task_name := py "Clean the kitchen" |};
         {| task_id := IdStr (py "4"); task_name := py "Cook. Eat" |} ].
Proof.
  intros prompt lines.
  assert (parse_response response = concat (List.map (parse_task_string []) lines)) as Hparse.
  { unfold parse_response. now rewrite fold_parse_task_string. }
  split; [|split; [exact Hparse|]].
  { unfold prioritization_agent, bind, get. fold prompt.
    destruct (openai_call prompt _ _ _ st) as [[text|e] st1]; reflexivity. }
  split; [exact parse_line_without_dot|].
  split; [exact parse_line_with_dot|].
  rewrite Hparse, length_parse_lines.
  split; [reflexivity|].
  split; [apply List.filter_length_le|].
  do 2 (split; [reflexivity|]).
  split; [apply join_split|].
  split.
  { eapply List.Forall_impl; [|apply (split_fields NEWLINE response)].
    intros line Hline. now apply contains_In. }
  split; [apply length_split|].
  split; [exact contains_true_In|].
  split; [exact strip_cut|].
  split; [exact strip_first|].
  split; [exact strip_last|].
  reflexivity.
Qed.



(** C2, as the code has it. [task_creation_agent] returns one task per
    line of the text [openai_call] returned, in order, the empty lines
    included: the names of the tasks are the fields of the split, and
    there is one more task than there are line breaks in the text. *)
Theorem task_creation_agent_one_task_per_line
    (objective : str) (result : EnrichedResult) (task_description : str)
    (names : list str) (st : St) (response : str) :
  let prompt := task_creation_prompt objective result task_description names in
  match openai_call prompt (USE_GPT4 cfg) default_temperature default_max_tokens st with
  | (Returned text, st1) =>
      task_creation_agent cfg objective result task_description names st
      = (Returned (List.map mkNewTask (split NEWLINE text)), st1)
  | (Raised e, st1) =>
      task_creation_agent cfg objective result task_description names st
      = (Raised e, st1)
  end
  /\ List.map new_task_name (List.map mkNewTask (split NEWLINE response))
     = split NEWLINE response
  /\ length (List.map mkNewTask (split NEWLINE response))
     = S (count_occ N.eq_dec response NEWLINE)
  /\ join [NEWLINE] (split NEWLINE response) = response.
Proof.
  intros prompt. split; [|split; [|split]].
  - unfold task_creation_agent, bind. fold prompt.
    destruct (openai_call prompt _ _ _ st) as [[text|e] st1]; reflexivity.
  - rewrite List.map_map. simpl. apply List.map_id.
  - rewrite length_map. apply length_split.
  - apply join_split.
Qed.

(** C10. [get_ada_embedding] sends to the embedding endpoint the text with
    every line break replaced by a space: the text sent has no line break,
    has the length of the input and differs from it only where the input
    has a line break. *)
Theorem get_ada_embedding_replaces_newlines (text : str) (st : St) :
  let sent := replace NEWLINE SPACE text in
  get_ada_embedding text st
  = call_service OpenAIEmbedding (EvEmbedding sent) (embedding_create sent) st
  /\ calls (snd (get_ada_embedding text st)) = calls st ++ [EvEmbedding sent]
  /\ ~ In NEWLINE sent
  /\ length sent = length text
  /\ (forall i, nth i sent 0%N
                = if (nth i text 0%N =? NEWLINE)%N then SPACE else nth i text 0%N).
Proof.
  intros sent. split; [reflexivity|]. split; [|split; [|split]].
  - unfold get_ada_embedding, call_service. fold sent. simpl.
    destruct (embedding_create sent (world st)) as [[v|d] w]; reflexivity.
  - apply contains_In. now apply replace_free.
  - apply length_map.
  - intros i. unfold sent, replace.
    exact (map_nth (fun c => if (c =? NEWLINE)%N then SPACE else c) text 0%N i).
Qed.



(* ===================================================================== *)
(** ** The descending stable sort of the context agent *)
(* ===================================================================== *)

Section SortedFacts.
Context {A : Type} (key : A -> Q).

Lemma insert_desc_perm (x : A) (l : list A) :
  Permutation (x :: l) (insert_desc key x l).
Proof.
  induction l as [|y l IH]; simpl; [reflexivity|].
  destruct (Qle_bool (key y) (key x)); [reflexivity|].
  rewrite perm_swap. now constructor.
Qed.

Lemma sorted_reverse_perm (l : list A) : Permutation l (sorted_reverse key l).
Proof.
  induction l as [|x l IH]; simpl; [reflexivity|].
  rewrite <- insert_desc_perm. now constructor.
Qed.

Lemma insert_desc_sorted (x : A) (l : list A) :
  StronglySorted (desc key) l -> StronglySorted (desc key) (insert_desc key x l).
Proof.
  induction l as [|y l IH]; intros Hs; simpl.
  - repeat constructor.
  - inversion Hs as [|? ? Htail Hhead]; subst.
    destruct (Qle_bool (key y) (key x)) eqn:Hle.
    + apply Qle_bool_iff in Hle.
      constructor; [assumption|].
      constructor; [exact Hle|].
      eapply List.Forall_impl; [|exact Hhead].
      intros z Hz. unfold desc in *. now apply Qle_trans with (key y).
    + constructor; [now apply IH|].
      apply (Permutation_Forall (insert_desc_perm x l)).
      constructor; [|assumption].
      unfold desc. apply Qlt_le_weak, Qnot_le_lt.
      intros Hc. apply Qle_bool_iff in Hc. congruence.
Qed.

Lemma sorted_reverse_sorted (l : list A) : StronglySorted (desc key) (sorted_reverse key l).
Proof.
  induction l as [|x l IH]; simpl; [constructor|].
  now apply insert_desc_sorted.
Qed.

(** Elements with one and the same key keep the order they came in. *)
Lemma insert_desc_stable (q : Q) (x : A) (l : list A) :
  List.filter (fun a => Qeq_bool (key a) q) (insert_desc key x l)
  = List.filter (fun a => Qeq_bool (key a) q) (x :: l).
Proof.
  induction l as [|y l IH]; [reflexivity|].
  simpl insert_desc. destruct (Qle_bool (key y) (key x)) eqn:Hle; [reflexivity|].
  simpl in *. rewrite IH.
  destruct (Qeq_bool (key x) q) eqn:Hx; [|reflexivity].
  destruct (Qeq_bool (key y) q) eqn:Hy; [|reflexivity].
  apply Qeq_bool_iff in Hx, Hy.
  assert (Qle_bool (key y) (key x) = true) as Hc; [|congruence].
  apply Qle_bool_iff. rewrite Hx, Hy. apply Qle_refl.
Qed.

Lemma sorted_reverse_stable (q : Q) (l : list A) :
  List.filter (fun a => Qeq_bool (key a) q) (sorted_reverse key l)
  = List.filter (fun a => Qeq_bool (key a) q) l.
Proof.
  induction l as [|x l IH]; [reflexivity|].
  simpl sorted_reverse. rewrite insert_desc_stable. simpl. now rewrite IH.
Qed.

(** A descending list is determined by what it holds under each key, in
    order: there is one stable descending arrangement of a list, whatever
    algorithm computes it. *)
Lemma stable_descending_unique (l1 l2 : list A) :
  StronglySorted (desc key) l1 ->
  StronglySorted (desc key) l2 ->
  (forall q : Q,
      List.filter (fun a => Qeq_bool (key a) q) l1
      = List.filter (fun a => Qeq_bool (key a) q) l2) ->
  l1 = l2.
Proof.
  assert (forall a, Qeq_bool (key a) (key a) = true) as Hrefl.
  { intros a. apply Qeq_bool_iff. reflexivity. }
  revert l2. induction l1 as [|x l1 IH]; intros l2 Hs1 Hs2 Hsame.
  - destruct l2 as [|y l2]; [reflexivity|].
    specialize (Hsame (key y)). simpl in Hsame. rewrite Hrefl in Hsame. discriminate.
  - destruct l2 as [|y l2].
    { specialize (Hsame (key x)). simpl in Hsame. rewrite Hrefl in Hsame. discriminate. }
    inversion Hs1 as [|? ? Hs1' Hx]; subst. inversion Hs2 as [|? ? Hs2' Hy]; subst.
    assert (x = y) as ->.
    { destruct (Qeq_bool (key y) (key x)) eqn:Heq.
      - pose proof (Hsame (key x)) as H. simpl in H. rewrite Hrefl, Heq in H.
        now injection H.
      - exfalso.
        assert (In x l2) as Hin2.
        { pose proof (Hsame (key x)) as H. simpl in H. rewrite Hrefl, Heq in H.
          assert (In x (List.filter (fun a => Qeq_bool (key a) (key x)) l2)) as Hin
            by (rewrite <- H; now left).
          now apply List.filter_In in Hin. }
        assert (In y l1) as Hin1.
        { pose proof (Hsame (key y)) as H. simpl in H. rewrite Hrefl in H.
          destruct (Qeq_bool (key x) (key y)) eqn:Heq'.
          - apply Qeq_bool_iff in Heq'. symmetry in Heq'.
            apply Qeq_bool_iff in Heq'. congruence.
          - assert (In y (List.filter (fun a => Qeq_bool (key a) (key y)) l1)) as Hin
              by (rewrite H; now left).
            now apply List.filter_In in Hin. }
        rewrite List.Forall_forall in Hx, Hy.
        pose proof (Hx y Hin1) as Hle1. pose proof (Hy x Hin2) as Hle2.
        unfold desc in Hle1, Hle2.
        assert (key y == key x)%Q as Hc by (now apply Qle_antisym).
        apply Qeq_bool_iff in Hc. congruence. }
    f_equal. apply IH; [assumption|assumption|].
    intros q. specialize (Hsame q). simpl in Hsame.
    destruct (Qeq_bool (key y) q); [now injection Hsame | exact Hsame].
Qed.

(** So [sorted_reverse] is the result of every stable descending sort. *)
Lemma sorted_reverse_unique (l sorted : list A) :
  StronglySorted (desc key) sorted ->
  (forall q : Q,
      List.filter (fun a => Qeq_bool (key a) q) sorted
      = List.filter (fun a => Qeq_bool (key a) q) l) ->
  sorted = sorted_reverse key l.
Proof.
  intros Hs Hsame. apply stable_descending_unique;
    [assumption | apply sorted_reverse_sorted |].
  intros q. now rewrite Hsame, sorted_reverse_stable.
Qed.

End SortedFacts.



(** What [context_agent] does when both of its service calls are answered. *)
Lemma context_agent_answered (query index_name : str) (n : Z) (st : St)
    (v : Vector) (w1 w2 : World) (matches : list Match) :
  embedding_create (replace NEWLINE SPACE query) (world st) = (Replied v, w1) ->
  index_query (index st) index_name v n w1 = (Replied matches, w2) ->
  context_agent query index_name n st
  = (Returned (context_of_matches matches),
     set_world w2
       (log (EvQuery index_name v n)
          (set_world w1 (log (EvEmbedding (replace NEWLINE SPACE query)) st)))).
Proof.
  intros Hemb Hquery.
  unfold context_agent, get_ada_embedding, call_service, bind, get, ret.
  simpl. rewrite Hemb. simpl. rewrite Hquery. reflexivity.
Qed.

(** C7. Whatever matches the index returns for the query, in whatever
    order, [context_agent] returns the [task] fields of these matches
    arranged by descending score: the list behind its result is a
    permutation of the matches, every element has a score no smaller than
    the ones after it, and matches with equal scores stay in the order the
    index gave them. *)
Theorem context_agent_sorts_by_score (query index_name : str) (n : Z) (st : St)
    (v : Vector) (w1 w2 : World) (matches : list Match) :
  embedding_create (replace NEWLINE SPACE query) (world st) = (Replied v, w1) ->
  index_query (index st) index_name v n w1 = (Replied matches, w2) ->
  exists sorted_results : list Match,
    fst (context_agent query index_name n st)
    = Returned (List.map (fun item => task (metadata item)) sorted_results)
    /\ Permutation matches sorted_results
    /\ StronglySorted (fun a b => (score b <= score a)%Q) sorted_results
    /\ (forall q : Q,
          List.filter (fun m => Qeq_bool (score m) q) sorted_results
          = List.filter (fun m => Qeq_bool (score m) q) matches).
Proof.
  intros Hemb Hquery. exists (sorted_reverse score matches).
  rewrite (context_agent_answered _ _ _ _ _ _ _ _ Hemb Hquery).
  split; [reflexivity|].
  split; [apply sorted_reverse_perm|].
  split; [apply (sorted_reverse_sorted score)|].
  intros q. apply sorted_reverse_stable.
Qed.

(** C8. When the query finds no match, [context_agent] returns the empty
    list, and its caller [execution_agent] goes on to its model call with
    the empty context. *)
Theorem context_agent_no_matches (query index_name : str) (n : Z) (st : St)
    (v : Vector) (w1 w2 : World) :
  embedding_create (replace NEWLINE SPACE query) (world st) = (Replied v, w1) ->
  index_query (index st) index_name v n w1 = (Replied [], w2) ->
  fst (context_agent query index_name n st) = Returned []
  /\ (index_name = YOUR_TABLE_NAME cfg -> n = 5 ->
      forall task_text : str,
        execution_agent cfg query task_text st
        = openai_call (execution_prompt query [] task_text) (USE_GPT4 cfg) (7 # 10) 2000
            (snd (context_agent query index_name n st))).
Proof.
  intros Hemb Hquery.
  pose proof (context_agent_answered _ _ _ _ _ _ _ _ Hemb Hquery) as Hrun.
  split; [now rewrite Hrun|].
  intros -> -> task_text. unfold execution_agent, bind.
  now rewrite Hrun.
Qed.


(* ===================================================================== *)
(** ** One iteration of the main loop, stage by stage *)
(* ===================================================================== *)



(** The [for] loop over the new tasks never raises: it numbers the tasks
    from the counter on and appends them in order. *)
Lemma add_new_tasks_run (new_tasks : list NewTask) (st : St) :
  add_new_tasks new_tasks st
  = (Returned tt,
     {| task_list := task_list st ++ number_tasks (task_id_counter st) new_tasks;
        task_id_counter := task_id_counter st + Z.of_nat (length new_tasks);
        index := index st;
        world := world st;
        calls := calls st ++ List.map EvAddTask (number_tasks (task_id_counter st) new_tasks) |}).
Proof.
  revert st. induction new_tasks as [|nt news IH]; intros st.
  - simpl. unfold ret. rewrite !app_nil_r, Z.add_0_r. now destruct st.
  - cbn [add_new_tasks]. unfold add_task, bind, modify, get. cbn beta iota.
    rewrite IH. cbn. f_equal. f_equal.
    + now rewrite <- app_assoc.
    + lia.
    + now rewrite <- app_assoc.
Qed.

Lemma openai_call_run (prompt : str) (use_gpt4 : bool) (temperature : Q)
    (max_tokens : Z) (st : St) :
  let request := openai_request use_gpt4 prompt temperature max_tokens in
  openai_call prompt use_gpt4 temperature max_tokens st
  = match completion_create request (world st) with
    | (Replied text, w) =>
        (Returned (strip text), set_world w (log (EvCompletion request) st))
    | (Failed detail, w) =>
        (Raised (ServiceError OpenAICompletion detail),
         set_world w (log (EvCompletion request) st))
    end.
Proof.
  unfold openai_call, openai_request, call_service, bind, ret.
  destruct use_gpt4; cbn;
    match goal with |- context [completion_create ?r ?w] =>
      destruct (completion_create r w) as [[text|detail] w'] end; reflexivity.
Qed.

Lemma get_ada_embedding_run (text : str) (st : St) :
  let sent := replace NEWLINE SPACE text in
  get_ada_embedding text st
  = match embedding_create sent (world st) with
    | (Replied v, w) => (Returned v, set_world w (log (EvEmbedding sent) st))
    | (Failed detail, w) =>
        (Raised (ServiceError OpenAIEmbedding detail),
         set_world w (log (EvEmbedding sent) st))
    end.
Proof. reflexivity. Qed.

(** Symbolic execution of a run: expose the next call to a service, then
    split on its answer. *)
Ltac expose_in H :=
  cbv beta iota zeta in H;
  first
    [ rewrite openai_call_run in H
    | rewrite get_ada_embedding_run in H
    | rewrite add_new_tasks_run in H
    | progress unfold call_service, index_upsert, task_creation_agent,
        prioritization_agent, execution_agent, context_agent,
        ret, raise, bind, get, modify in H ].

Ltac answer_in H :=
  match type of H with
  | context [embedding_create ?x ?w] =>
      destruct (embedding_create x w) as [[? | ?] ?] eqn:?
  | context [index_query ?i ?nm ?v ?n ?w] =>
      destruct (index_query i nm v n w) as [[? | ?] ?] eqn:?
  | context [completion_create ?r ?w] =>
      destruct (completion_create r w) as [[? | ?] ?] eqn:?
  | context [upsert_fault ?i ?v ?m ?w] =>
      destruct (upsert_fault i v m w) as [[? |] ?] eqn:?
  end.

Ltac expose :=
  cbv beta iota zeta;
  first
    [ rewrite openai_call_run
    | rewrite get_ada_embedding_run
    | progress unfold executed, execution_raised, call_service, execution_agent,
        context_agent,
        ret, raise, bind, get, modify
    | match goal with E : ?call = _ |- context [?call] => rewrite E end ].

Ltac fields :=
  cbn [calls task_list task_id_counter index world log set_world
       set_task_list set_index set_task_id_counter];
  rewrite <- ?app_assoc; cbn [app]; try reflexivity.

Lemma iteration_run_complete (st : St) (t : Task) (rest : list Task)
    (o : Outcome unit) (st' : St) :
  task_list st = t :: rest ->
  iteration cfg st = (o, st') ->
  iteration_run st t rest o st'.
Proof.
  intros Hq Hrun.
  unfold iteration, bind at 1, popleft in Hrun. rewrite Hq in Hrun.
  repeat expose_in Hrun. answer_in Hrun.
  2:{ cbv beta iota in Hrun. injection Hrun as <- <-.
      eapply FailedContextEmbedding; fields. repeat expose. reflexivity. }
  repeat expose_in Hrun. answer_in Hrun.
  2:{ cbv beta iota in Hrun. injection Hrun as <- <-.
      eapply FailedContextQuery; fields. repeat expose. reflexivity. }
  repeat expose_in Hrun. answer_in Hrun.
  2:{ cbv beta iota in Hrun. injection Hrun as <- <-.
      eapply FailedExecution; fields. repeat expose. reflexivity. }
  cbv beta iota in Hrun.
  match type of Hrun with context [strip ?text] => set (r := strip text) in * end.
  assert (executed st t rest r) as Hexec.
  { repeat expose. reflexivity. }
  assert (exists n,
            (int_value (task_id t) = Some n
             /\ forall s0 : St, int_of_task_id (task_id t) s0 = (Returned n, s0))
            \/ (exists s, task_id t = IdStr s /\ int_of_str s = None
                 /\ forall s0 : St,
                      int_of_task_id (task_id t) s0 = (Raised (ValueError s), s0)))
    as Hconv.
  { unfold int_of_task_id, int_value. destruct (task_id t) as [n|s].
    - exists n. left. now split.
    - destruct (int_of_str s) as [n|] eqn:Hs.
      + exists n. left. now split.
      + exists 0. right. exists s. now repeat split. }
  destruct Hconv as (n & [(Hn & Hint) | (s & Hid & Hs & Hint)]); rewrite Hint in Hrun.
  2:{ cbv beta iota in Hrun. injection Hrun as <- <-.
      eapply FailedConversion; eauto; fields. }
  repeat expose_in Hrun. answer_in Hrun.
  2:{ cbv beta iota in Hrun. injection Hrun as <- <-.
      eapply FailedResultEmbedding; eauto; fields. }
  repeat expose_in Hrun. answer_in Hrun.
  { cbv beta iota in Hrun. injection Hrun as <- <-.
      eapply FailedStoring; eauto; fields. }
  repeat expose_in Hrun. answer_in Hrun.
  2:{ cbv beta iota in Hrun. injection Hrun as <- <-.
      eapply FailedCreation; eauto; fields. }
  repeat expose_in Hrun. answer_in Hrun.
  2:{ cbv beta iota in Hrun. injection Hrun as <- <-.
      eapply FailedPrioritization; eauto; fields. }
  cbv beta iota in Hrun. injection Hrun as <- <-.
  eapply Completed; eauto; fields.
Qed.

Lemma int_value_unparsable (t : Task) (s : str) :
  task_id t = IdStr s -> int_of_str s = None -> int_value (task_id t) = None.
Proof. intros -> H. exact H. Qed.

(** C9. When the task taken off the queue has a [str] id that [int()]
    rejects, the iteration raises and stores nothing: the index is as
    before and the log has no write request. When the execution agent
    returned, the exception is the [ValueError] of the conversion, and the
    model call of the execution agent is the last event of the log. *)
Theorem unparsable_id_raises_before_storing (st : St) (t : Task) (rest : list Task)
    (s : str) :
  task_list st = t :: rest ->
  task_id t = IdStr s ->
  int_of_str s = None ->
  let o := fst (iteration cfg st) in
  let st' := snd (iteration cfg st) in
  (exists e, o = Raised e)
  /\ index st' = index st
  /\ task_list st' = rest
  /\ (exists evs, calls st' = calls st ++ EvPopLeft t :: evs
                  /\ forall id v meta, ~ In (EvUpsert id v meta) evs)
  /\ (forall r, executed st t rest r ->
        o = Raised (ValueError s)
        /\ exists qv context,
             calls st' = calls st ++ [EvPopLeft t; ev_context_embedding;
                                      ev_context_query qv; ev_execution t context]).
Proof.
  intros Hq Hid Hs o st'.
  pose proof (int_value_unparsable t s Hid Hs) as Hnone.
  assert (iteration_run st t rest o st') as Hrun.
  { apply iteration_run_complete; [assumption|]. subst o st'. now destruct (iteration cfg st). }
  clearbody o st'.
  destruct Hrun;
    try (match goal with H : int_value _ = Some _ |- _ => rewrite Hnone in H; discriminate end).
  - split; [eauto|]. do 2 (split; [assumption|]). split.
    + eexists. split; [eassumption|]. intros id v meta [Hin|[]]. discriminate.
    + intros r Hr. unfold executed, execution_raised in *. congruence.
  - split; [eauto|]. do 2 (split; [assumption|]). split.
    + eexists. split; [eassumption|]. intros id v meta [Hin|[Hin|[]]]; discriminate.
    + intros r Hr. unfold executed, execution_raised in *. congruence.
  - split; [eauto|]. do 2 (split; [assumption|]). split.
    + eexists. split; [eassumption|].
      intros id v meta [Hin|[Hin|[Hin|[]]]]; discriminate.
    + intros r Hr. unfold executed, execution_raised in *. congruence.
  - split; [eauto|]. do 2 (split; [assumption|]). split.
    + eexists. split; [eassumption|].
      intros id v meta [Hin|[Hin|[Hin|[]]]]; discriminate.
    + intros r0 Hr. split; [congruence|]. eauto.
Qed.

Ltac ev_unfold :=
  unfold ev_context_embedding, ev_context_query, ev_execution,
    ev_result_embedding, ev_storing, ev_creation, ev_prioritization in *.

Lemma upsert_not_added (id : str) (v : Vector) (meta : Metadata) (l : list Task) :
  ~ In (EvUpsert id v meta) (List.map EvAddTask l).
Proof. intros H. apply in_map_iff in H as (x & Hx & _). discriminate. Qed.

(** Membership of a write request in the log of a run, case by case. *)
Ltac find_upsert H :=
  ev_unfold; cbn [app] in H; rewrite ?in_app_iff in H; cbn [In] in H;
  repeat match type of H with
         | _ \/ _ => destruct H as [H|H]
         | False => destruct H
         | In _ (_ ++ _) => apply in_app_or in H
         | In _ (_ :: _) => cbn [In] in H
         | In _ (List.map EvAddTask _) => apply upsert_not_added in H; destruct H
         | EvUpsert _ _ _ = EvUpsert _ _ _ => injection H as <- <- <-
         | _ = EvUpsert _ _ _ => discriminate H
         end.

(** C5. Every write request an iteration on the task [t] sends to the index
    has the id ["result_"] followed by the id of [t] as an f-string renders
    it -- the id itself when it is a [str], a decimal numeral that reads
    back as the id when it is an [int] -- and the metadata made of the name
    of [t] and of the result the execution agent returned. The write either
    fails, and the index stays as it was, or it is the write of the store on
    the index as it was: it leaves exactly that record under that id, every
    other id keeps its record, and when the id was there the number of
    records does not change. An iteration that completes has sent such a
    request and leaves the record of [t] in the index. *)
Theorem result_stored_under_task_id (st : St) (t : Task) (rest : list Task) :
  task_list st = t :: rest ->
  let o := fst (iteration cfg st) in
  let st' := snd (iteration cfg st) in
  exists evs,
    calls st' = calls st ++ evs
    /\ (forall id v meta,
          In (EvUpsert id v meta) evs ->
          id = py "result_" ++ format_task_id (task_id t)
          /\ task meta = task_name t
          /\ executed st t rest (result meta)
          /\ ((exists detail, o = Raised (ServiceError PineconeUpsert detail))
               /\ index st' = index st
              \/ index st' !! id = Some (v, meta)
                 /\ (forall id', id' <> id -> index st' !! id' = index st !! id')
                 /\ (is_Some (index st !! id) -> size (index st') = size (index st))
                 /\ (index st !! id = None -> size (index st') = S (size (index st))))
          /\ (forall s, task_id t = IdStr s -> id = py "result_" ++ s)
          /\ (forall n, task_id t = IdInt n ->
                exists numeral : string,
                  id = py "result_" ++ py numeral
                  /\ option_map Z.of_int (NilZero.int_of_string numeral) = Some n)
          /\ ((forall detail, o <> Raised (ServiceError PineconeUpsert detail)) ->
              index st' = store_upsert id (v, meta) (index st)))
    /\ (o = Returned tt ->
        exists v r, In (EvUpsert (py "result_" ++ format_task_id (task_id t)) v
                          {| task := task_name t; result := r |}) evs)
    /\ (o = Returned tt ->
        exists v r,
          executed st t rest r
          /\ index st' !! (py "result_" ++ format_task_id (task_id t))
             = Some (v, {| task := task_name t; result := r |})).
Proof.
  intros Hq o st'.
  assert (iteration_run st t rest o st') as Hrun.
  { apply iteration_run_complete; [assumption|]. subst o st'. now destruct (iteration cfg st). }
  clearbody o st'.
  assert (forall (v : Vector) (meta : Metadata),
             index st' = <[result_id t := (v, meta)]> (index st) ->
             index st' !! result_id t = Some (v, meta)
             /\ (forall id', id' <> result_id t -> index st' !! id' = index st !! id')
             /\ (is_Some (index st !! result_id t) -> size (index st') = size (index st))
             /\ (index st !! result_id t = None -> size (index st') = S (size (index st))))
    as Hstored.
  { intros v meta ->. split; [apply lookup_insert_eq|]. split; [|split].
    - intros id' Hne. now apply lookup_insert_ne.
    - intros Hsome. now apply map_size_insert_Some.
    - intros Hnone. now apply map_size_insert_None. }
  assert ((forall s, task_id t = IdStr s -> result_id t = py "result_" ++ s)
          /\ (forall n, task_id t = IdInt n ->
                exists numeral : string,
                  result_id t = py "result_" ++ py numeral
                  /\ option_map Z.of_int (NilZero.int_of_string numeral) = Some n))
    as [Hstr Hint].
  { unfold result_id. split.
    - now intros s ->.
    - intros n ->. destruct (str_of_int_numeral n) as (numeral & Hn & Hback).
      exists numeral. split; [|exact Hback]. cbn [format_task_id]. now rewrite Hn. }
  destruct Hrun;
    match goal with H : calls _ = calls _ ++ ?l |- _ => exists l; split; [exact H|] end;
    (split; [intros id0 v0 meta0 Hin
            | split; intros Ho; try discriminate Ho]).
  all: try (find_upsert Hin; fail).
  - find_upsert Hin. do 3 (split; [easy|]).
    split; [left; split; [now eexists|assumption]|].
    split; [exact Hstr|]. split; [exact Hint|].
    intros Hno. exfalso. now apply (Hno detail).
  - find_upsert Hin. do 3 (split; [easy|]).
    split; [right; refine (Hstored _ _ _); assumption|].
    split; [exact Hstr|]. split; [exact Hint|].
    intros _. unfold store_upsert. assumption.
  - find_upsert Hin. do 3 (split; [easy|]).
    split; [right; refine (Hstored _ _ _); assumption|].
    split; [exact Hstr|]. split; [exact Hint|].
    intros _. unfold store_upsert. assumption.
  - find_upsert Hin. do 3 (split; [easy|]).
    split; [right; refine (Hstored _ _ _); assumption|].
    split; [exact Hstr|]. split; [exact Hint|].
    intros _. unfold store_upsert. assumption.
  - exists v, r. ev_unfold. cbn. tauto.
  - exists v, r. split; [assumption|].
    match goal with H : index st' = _ |- _ => rewrite H end.
    apply lookup_insert_eq.
Qed.

(** *** The order of the steps *)


(** The request of the execution agent is not the one of the creation
    agent: they ask for different numbers of tokens. *)
Lemma execution_is_not_creation (t : Task) (context : list str) (t' : Task)
    (r : str) (rest : list Task) :
  ev_execution t context <> ev_creation t' r rest.
Proof.
  unfold ev_execution, ev_creation, openai_request, default_max_tokens.
  destruct (USE_GPT4 cfg); cbn [negb]; intros H; injection H; discriminate.
Qed.

Lemma early_events_need_no_storing (t : Task) (rest : list Task) (es : list Ev) :
  Forall (fun e => e = EvPopLeft t \/ e = ev_context_embedding
                   \/ (exists qv, e = ev_context_query qv)
                   \/ is_execution_call t e
                   \/ (exists r, e = ev_result_embedding r)
                   \/ (exists r v, e = ev_storing t r v)) es ->
  Forall (fun e => ~ needs_storing t rest e) es.
Proof.
  apply List.Forall_impl. intros e He [[r Hc]|[t' Ha]]; subst e.
  - destruct He as [He|[He|[[qv He]|[[context He]|[[r' He]|(r' & v & He)]]]]];
      first [ discriminate He
            | symmetry in He; now apply execution_is_not_creation in He ].
  - destruct He as [He|[He|[[qv He]|[[context He]|[[r' He]|(r' & v & He)]]]]];
      discriminate He.
Qed.

(** In a log [early ++ u :: later] whose [early] events and [u] do not need
    the result stored, whatever does need it stands after [u]. *)
Lemma stands_after (t : Task) (rest : list Task) (early later : list Ev)
    (u : Ev) (i : nat) (e : Ev) :
  Forall (fun e => ~ needs_storing t rest e) (early ++ [u]) ->
  (early ++ u :: later) !! i = Some e ->
  needs_storing t rest e ->
  (length early < i)%nat /\ (early ++ u :: later) !! length early = Some u.
Proof.
  intros Hearly Hi He. split.
  - destruct (Nat.lt_ge_cases (length early) i) as [Hlt|Hge]; [assumption|].
    exfalso. rewrite Forall_lookup in Hearly. apply (Hearly i e); [|assumption].
    change (u :: later) with ([u] ++ later) in Hi. rewrite app_assoc in Hi.
    rewrite lookup_app_l in Hi; [assumption|]. rewrite length_app. simpl. lia.
  - rewrite lookup_app_r by lia. now rewrite Nat.sub_diag.
Qed.

Ltac early_events :=
  apply early_events_need_no_storing;
  repeat (constructor; [unfold is_execution_call; eauto 12|]); constructor.

(** C4. The log of an iteration on the task [t] starts with [t] leaving the
    queue, so the model call of the execution agent, which computes the
    result, comes later. A call of the creation agent or an appended task is
    found in the log only after the write request for the result of [t],
    and only when that write went through: the index then holds the record.
    When the write fails the queue is left as it was after [t] was taken
    off. A completed iteration logs the steps in this order: pop, context
    embedding and query, execution, embedding of the result, write,
    creation, appends, prioritization. *)
Theorem iteration_steps_in_order (st : St) (t : Task) (rest : list Task) :
  task_list st = t :: rest ->
  let o := fst (iteration cfg st) in
  let st' := snd (iteration cfg st) in
  exists evs : list Ev,
    calls st' = calls st ++ evs
    /\ evs !! 0%nat = Some (EvPopLeft t)
    /\ (forall i e, evs !! i = Some e -> is_execution_call t e -> (0 < i)%nat)
    /\ (forall i e,
          evs !! i = Some e -> needs_storing t rest e ->
          exists j r v,
            (j < i)%nat
            /\ evs !! j = Some (ev_storing t r v)
            /\ executed st t rest r
            /\ index st' = <[result_id t := (v, result_metadata t r)]> (index st))
    /\ (forall detail,
          o = Raised (ServiceError PineconeUpsert detail) ->
          task_list st' = rest
          /\ index st' = index st
          /\ Forall (fun e => ~ needs_storing t rest e) evs)
    /\ (o = Returned tt ->
        exists qv context r v new_tasks n,
          evs = [EvPopLeft t; ev_context_embedding; ev_context_query qv;
                 ev_execution t context; ev_result_embedding r;
                 ev_storing t r v; ev_creation t r rest]
                ++ List.map EvAddTask (number_tasks (task_id_counter st) new_tasks)
                ++ [ev_prioritization
                      (rest ++ number_tasks (task_id_counter st) new_tasks) n]).
Proof.
  intros Hq o st'.
  assert (iteration_run st t rest o st') as Hrun.
  { apply iteration_run_complete; [assumption|]. subst o st'. now destruct (iteration cfg st). }
  clearbody o st'.
  assert (forall (l : list Ev) i e,
             (EvPopLeft t :: l) !! i = Some e -> is_execution_call t e -> (0 < i)%nat)
    as Hfirst.
  { intros l i e Hi [context ->]. destruct i; [discriminate Hi|lia]. }
  destruct Hrun;
    match goal with H : calls _ = calls _ ++ ?l |- _ => exists l; split; [exact H|] end;
    (split; [reflexivity|]); (split; [apply Hfirst|]).
  1-6: split;
    [ intros i e Hi He; exfalso;
      match goal with _ : calls _ = calls _ ++ ?l |- _ =>
        assert (Forall (fun e => ~ needs_storing t rest e) l) as Hno by early_events
      end;
      rewrite Forall_lookup in Hno; exact (Hno i e Hi He)
    | split; [intros detail0 Ho; try discriminate Ho | intros Ho; discriminate Ho] ].
  - do 2 (split; [assumption|]). early_events.
  - split; [|split; [intros detail0 Ho; discriminate Ho | intros Ho; discriminate Ho]].
    intros i e Hi He.
    assert (Forall (fun e => ~ needs_storing t rest e)
              ([EvPopLeft t; ev_context_embedding; ev_context_query qv;
                ev_execution t context; ev_result_embedding r]
               ++ [ev_storing t r v])) as Hearly by early_events.
    destruct (stands_after t rest _ _ _ i e Hearly Hi He) as [Hlt Hat].
    exists 5%nat, r, v. repeat split; assumption.
  - split; [|split; [intros detail0 Ho; discriminate Ho | intros Ho; discriminate Ho]].
    intros i e Hi He.
    assert (Forall (fun e => ~ needs_storing t rest e)
              ([EvPopLeft t; ev_context_embedding; ev_context_query qv;
                ev_execution t context; ev_result_embedding r]
               ++ [ev_storing t r v])) as Hearly by early_events.
    destruct (stands_after t rest _ _ _ i e Hearly Hi He) as [Hlt Hat].
    exists 5%nat, r, v. repeat split; assumption.
  - split; [|split; [intros detail0 Ho; discriminate Ho | intros _; now eauto 8]].
    intros i e Hi He.
    assert (Forall (fun e => ~ needs_storing t rest e)
              ([EvPopLeft t; ev_context_embedding; ev_context_query qv;
                ev_execution t context; ev_result_embedding r]
               ++ [ev_storing t r v])) as Hearly by early_events.
    destruct (stands_after t rest _ _ _ i e Hearly Hi He) as [Hlt Hat].
    exists 5%nat, r, v. repeat split; assumption.
Qed.

(** *** The ids the main loop hands out *)
















(** C6. Started on an empty queue, the loop is still running after any
    number of turns: it has raised nothing, taken nothing off the queue and
    called no service; each turn has slept one second, and the queue, the
    counter and the index are untouched. From no state does the loop leave
    through its condition. *)
Theorem main_loop_polls_empty_queue (fuel : nat) (counter : Z)
    (idx : gmap (list N) (Vector * Metadata)) (w : World) (past : list Ev) :
  main_loop cfg fuel
    {| task_list := []; task_id_counter := counter; index := idx; world := w;
       calls := past |}
  = (Running,
     {| task_list := []; task_id_counter := counter; index := idx; world := w;
        calls := past ++ repeat (EvSleep 1) fuel |})
  /\ (forall st : St, fst (main_loop cfg fuel st) <> Exited).
Proof.
  split.
  - revert past. induction fuel as [|fuel IH]; intros past.
    + cbn. now rewrite app_nil_r.
    + unfold main_loop in *. cbn [while repeat].
      change (loop_body cfg {| task_list := []; task_id_counter := counter;
                               index := idx; world := w; calls := past |})
        with (Returned tt,
              {| task_list := []; task_id_counter := counter; index := idx;
                 world := w; calls := past ++ [EvSleep 1] |}).
      cbv beta iota. rewrite IH. now rewrite <- app_assoc.
  - induction fuel as [|fuel IH]; intros st; [discriminate|].
    unfold main_loop in *. cbn [while].
    destruct (loop_body cfg st) as [[[]|e] st1]; [apply IH | discriminate].
Qed.

(* ===================================================================== *)
(** ** More on stripping and splitting *)
(* ===================================================================== *)

Lemma lstrip_idempotent (s : str) : lstrip (lstrip s) = lstrip s.
Proof.
  induction s as [|c s IH]; [reflexivity|].
  simpl. destruct (isspace c) eqn:Hc; [exact IH|]. simpl. now rewrite Hc.
Qed.

(** Stripping on the left stops at the first character that is no white
    space. *)
Lemma lstrip_upto (a : str) (c : N) (b : str) :
  isspace c = false -> lstrip (a ++ c :: b) = lstrip a ++ c :: b.
Proof.
  intros Hc. induction a as [|x a IH]; simpl.
  - now rewrite Hc.
  - destruct (isspace x); [exact IH|reflexivity].
Qed.

Lemma rstrip_upto (a : str) (c : N) (b : str) :
  isspace c = false -> rstrip (a ++ c :: b) = a ++ c :: rstrip b.
Proof.
  intros Hc. unfold rstrip. rewrite rev_app_distr. simpl rev.
  rewrite <- app_assoc. simpl. rewrite lstrip_upto by assumption.
  rewrite rev_app_distr. simpl. rewrite rev_involutive, <- app_assoc. reflexivity.
Qed.

Lemma rstrip_idempotent (s : str) : rstrip (rstrip s) = rstrip s.
Proof. unfold rstrip. now rewrite rev_involutive, lstrip_idempotent. Qed.

Lemma lstrip_snoc (s : str) (c : N) :
  lstrip (s ++ [c])
  = match lstrip s with
    | [] => if isspace c then [] else [c]
    | _ :: _ => lstrip s ++ [c]
    end.
Proof.
  induction s as [|x s IH]; [reflexivity|].
  simpl. destruct (isspace x); [exact IH|reflexivity].
Qed.

Lemma rstrip_cons (c : N) (s : str) :
  rstrip (c :: s)
  = match rstrip s with
    | [] => if isspace c then [] else [c]
    | _ :: _ => c :: rstrip s
    end.
Proof.
  unfold rstrip. simpl rev. rewrite lstrip_snoc.
  destruct (lstrip (rev s)) as [|x l] eqn:Hl.
  - simpl. now destruct (isspace c).
  - rewrite rev_app_distr. simpl.
    destruct (rev l ++ [x]) eqn:Hr; [now destruct (rev l)|reflexivity].
Qed.

(** Stripping the two ends in either order gives the same string. *)
Lemma lstrip_rstrip (s : str) : lstrip (rstrip s) = rstrip (lstrip s).
Proof.
  induction s as [|c s IH]; [reflexivity|].
  rewrite rstrip_cons. simpl lstrip at 2.
  destruct (isspace c) eqn:Hc.
  - destruct (rstrip s) as [|x l] eqn:Hr.
    + simpl in IH. now rewrite <- IH.
    + simpl. rewrite Hc. exact IH.
  - rewrite rstrip_cons.
    destruct (rstrip s); simpl; now rewrite Hc.
Qed.

Lemma strip_stripped (s : str) : stripped (strip s).
Proof.
  unfold stripped, strip. split.
  - now rewrite <- lstrip_rstrip, lstrip_idempotent.
  - apply rstrip_idempotent.
Qed.

Lemma strip_idempotent (s : str) : strip (strip s) = strip s.
Proof.
  destruct (strip_stripped s) as [Hl Hr]. unfold strip at 1. now rewrite Hl, Hr.
Qed.

(** A stripped string does not start with white space. *)
Lemma stripped_head (c : N) (s : str) : stripped (c :: s) -> isspace c = false.
Proof.
  intros [Hl _]. simpl in Hl. destruct (isspace c) eqn:Hc; [|reflexivity].
  exfalso. assert (length (lstrip s) <= length s)%nat as Hlen.
  { clear. induction s as [|x s IH]; simpl; [lia|].
    destruct (isspace x); simpl; lia. }
  rewrite Hl in Hlen. simpl in Hlen. lia.
Qed.

(** What is found in a stripped string was in the string. *)
Lemma contains_lstrip_was (sep : N) (s : str) :
  contains sep (lstrip s) = true -> contains sep s = true.
Proof.
  induction s as [|c s IH]; [discriminate|].
  simpl. destruct (isspace c); [|exact (fun H => H)].
  intros H. rewrite (IH H). apply orb_true_r.
Qed.

Lemma contains_strip_was (sep : N) (s : str) :
  contains sep (strip s) = true -> contains sep s = true.
Proof.
  unfold strip, rstrip. rewrite contains_rev. intros H.
  apply contains_lstrip_was in H. rewrite contains_rev in H.
  now apply contains_lstrip_was.
Qed.

(** The fields of two texts joined by a separator are the fields of the
    first followed by the fields of the second. *)
Lemma split_app (sep : N) (a b : str) :
  split sep (a ++ sep :: b) = split sep a ++ split sep b.
Proof.
  induction a as [|c a IH]; simpl.
  - now rewrite N.eqb_refl.
  - destruct (c =? sep)%N; [now rewrite IH|].
    rewrite IH. pose proof (split_nonempty sep a).
    destruct (split sep a); [contradiction|reflexivity].
Qed.

Lemma split_absent (sep : N) (s : str) :
  contains sep s = false -> split sep s = [s].
Proof.
  induction s as [|c s IH]; [reflexivity|].
  simpl. destruct (c =? sep)%N; [discriminate|].
  simpl. intros H. now rewrite IH.
Qed.

(* ===================================================================== *)
(** ** More on the model call and on the parsed queue *)
(* ===================================================================== *)

(** X1. [openai_call] sends one request, of the tier asked for, and touches
    neither the queue nor the counter nor the index. The text it returns
    has no white space at either end; when the request fails the error of
    the completion service is raised. *)
Theorem openai_call_returns_stripped (prompt : str) (use_gpt4 : bool)
    (temperature : Q) (max_tokens : Z) (st : St) :
  let request := openai_request use_gpt4 prompt temperature max_tokens in
  match openai_call prompt use_gpt4 temperature max_tokens st with
  | (Returned text, st') =>
      stripped text
      /\ same_globals st st'
      /\ calls st' = calls st ++ [EvCompletion request]
  | (Raised e, st') =>
      (exists detail, e = ServiceError OpenAICompletion detail)
      /\ same_globals st st'
      /\ calls st' = calls st ++ [EvCompletion request]
  end
  /\ request = (if use_gpt4
                then ChatCompletion (py "gpt-4") prompt temperature max_tokens
                else Completion (py "text-davinci-003") prompt temperature max_tokens).
Proof.
  intros request. split; [|unfold request, openai_request; now destruct use_gpt4].
  rewrite openai_call_run. fold request.
  destruct (completion_create request (world st)) as [[text|detail] w].
  - split; [apply strip_stripped|]. now repeat split.
  - split; [now exists detail|]. now repeat split.
Qed.

Lemma parse_line_shape (line : str) :
  contains NEWLINE line = false ->
  Forall (fun t => exists s,
              task_id t = IdStr s
              /\ contains DOT s = false /\ contains NEWLINE s = false
              /\ stripped s
              /\ stripped (task_name t) /\ contains NEWLINE (task_name t) = false)
    (parse_task_string [] line).
Proof.
  intros Hnl. destruct (contains DOT line) eqn:Hdot.
  - destruct (parse_line_with_dot line Hdot) as (before & after & Hcut & Hb & ->).
    assert (contains NEWLINE (strip line) = false) as Hs.
    { destruct (contains NEWLINE (strip line)) eqn:E; [|reflexivity].
      apply contains_strip_was in E. congruence. }
    rewrite Hcut, contains_app in Hs. apply orb_false_iff in Hs as [Hs1 Hs2].
    simpl in Hs2.
    constructor; [|constructor]. exists (strip before). cbn [task_id task_name].
    split; [reflexivity|]. split; [now rewrite contains_strip|].
    split.
    { destruct (contains NEWLINE (strip before)) eqn:E; [|reflexivity].
      apply contains_strip_was in E. congruence. }
    split; [apply strip_stripped|]. split; [apply strip_stripped|].
    destruct (contains NEWLINE (strip after)) eqn:E; [|reflexivity].
    apply contains_strip_was in E. congruence.
  - rewrite parse_line_without_dot by assumption. constructor.
Qed.

(** X2. Every task the prioritization agent puts in the queue has a [str]
    id, never an [int]: the id has no ['.'], no line break and no white
    space at either end, and the name has no line break and no white space
    at either end. *)
Theorem parsed_tasks_have_stripped_string_ids (response : str) :
  Forall (fun t => exists s,
              task_id t = IdStr s
              /\ contains DOT s = false /\ contains NEWLINE s = false
              /\ stripped s
              /\ stripped (task_name t) /\ contains NEWLINE (task_name t) = false)
    (parse_response response).
Proof.
  unfold parse_response. rewrite fold_parse_task_string. cbn [app].
  pose proof (split_fields NEWLINE response) as Hfields.
  induction Hfields as [|line lines Hline _ IH]; [constructor|].
  cbn [List.map concat]. apply List.Forall_app. split; [|exact IH].
  now apply parse_line_shape.
Qed.

(** X3. The queue parsed from two texts joined by a line break is the queue
    of the first followed by the queue of the second: the order of the
    lines is the order of the tasks. *)
Theorem parse_response_app (first second : str) :
  parse_response (first ++ NEWLINE :: second)
  = parse_response first ++ parse_response second.
Proof.
  unfold parse_response. rewrite split_app, !fold_parse_task_string.
  cbn [app]. now rewrite List.map_app, concat_app.
Qed.

Lemma parse_response_cut (first second : str) :
  parse_response (first ++ NEWLINE :: second)
  = parse_response first ++ parse_response second.
Proof.
  unfold parse_response. rewrite split_app, !fold_parse_task_string.
  rewrite !app_nil_l. now rewrite List.map_app, concat_app.
Qed.

Lemma parse_format_line (id name : str) :
  contains DOT id = false ->
  contains NEWLINE id = false ->
  contains NEWLINE name = false ->
  parse_response (format_line id name)
  = [{| task_id := IdStr (strip id); task_name := strip name |}].
Proof.
  intros Hdot Hnl1 Hnl2.
  change (format_line id name) with (id ++ DOT :: SPACE :: name).
  unfold parse_response. rewrite split_absent.
  2:{ rewrite contains_app, Hnl1. simpl. exact Hnl2. }
  cbn [fold_left]. unfold parse_task_string.
  assert (strip (id ++ DOT :: SPACE :: name)
          = lstrip id ++ DOT :: rstrip (SPACE :: name)) as ->.
  { unfold strip. rewrite lstrip_upto by reflexivity. now apply rstrip_upto. }
  rewrite split1_at by (now rewrite contains_lstrip).
  cbn [length Nat.eqb nth app]. f_equal. f_equal.
  - f_equal. unfold strip. now rewrite lstrip_idempotent.
  - unfold strip. rewrite lstrip_rstrip, rstrip_idempotent. reflexivity.
Qed.

(** X4. A numbered list in the format the prompt asks for is read back: the
    lines [id. name], joined by line breaks, give the tasks with these ids
    and names, stripped, in the same order. The names may contain ['.']. *)
Theorem parse_response_reads_numbered_list (items : list (str * str)) :
  Forall (fun item => contains DOT (fst item) = false
                      /\ contains NEWLINE (fst item) = false
                      /\ contains NEWLINE (snd item) = false) items ->
  parse_response
    (join [NEWLINE] (List.map (fun item => format_line (fst item) (snd item)) items))
  = List.map (fun item => {| task_id := IdStr (strip (fst item));
                             task_name := strip (snd item) |}) items.
Proof.
  induction 1 as [|[id name] items (Hdot & Hnl1 & Hnl2) Hitems IH]; [reflexivity|].
  destruct items as [|item items].
  - cbn [List.map join fst snd]. now apply parse_format_line.
  - set (line := fun item : str * str => format_line (fst item) (snd item)) in *.
    change (join [NEWLINE] (List.map line ((id, name) :: item :: items)))
      with (format_line id name ++ NEWLINE :: join [NEWLINE] (List.map line (item :: items))).
    rewrite parse_response_cut, IH, parse_format_line by assumption.
    reflexivity.
Qed.

(* ===================================================================== *)
(** ** More on the agents that rewrite the queue *)
(* ===================================================================== *)

Lemma prioritization_agent_run (this_task_id : Z) (st : St) :
  let request :=
    openai_request (USE_GPT4 cfg)
      (prioritization_prompt cfg (List.map task_name (task_list st)) (this_task_id + 1))
      default_temperature default_max_tokens in
  prioritization_agent cfg this_task_id st
  = match completion_create request (world st) with
    | (Replied text, w) =>
        (Returned tt,
         set_task_list (parse_response (strip text))
           (set_world w (log (EvCompletion request) st)))
    | (Failed detail, w) =>
        (Raised (ServiceError OpenAICompletion detail),
         set_world w (log (EvCompletion request) st))
    end.
Proof.
  intros request. unfold prioritization_agent, bind, get, modify.
  rewrite openai_call_run. fold request.
  destruct (completion_create request (world st)) as [[text|detail] w]; reflexivity.
Qed.

(** X5. The prioritization agent empties the queue only after the model has
    answered: when the model call fails the queue is left as it was, when
    it succeeds the queue is the parse of the answer of the model, stripped
    of the white space at its two ends, and nothing of the old queue is kept
    beside it. Either way the counter and the index are untouched and one
    request is logged. *)
Theorem prioritization_agent_failure_keeps_queue (this_task_id : Z) (st : St) :
  match prioritization_agent cfg this_task_id st with
  | (Returned _, st') =>
      exists response,
        stripped response /\ task_list st' = parse_response response
  | (Raised e, st') =>
      (exists detail, e = ServiceError OpenAICompletion detail)
      /\ task_list st' = task_list st
  end
  /\ task_id_counter (snd (prioritization_agent cfg this_task_id st))
     = task_id_counter st
  /\ index (snd (prioritization_agent cfg this_task_id st)) = index st
  /\ calls (snd (prioritization_agent cfg this_task_id st))
     = calls st ++ [ev_prioritization (task_list st) this_task_id]
  /\ (let request :=
        openai_request (USE_GPT4 cfg)
          (prioritization_prompt cfg (List.map task_name (task_list st))
             (this_task_id + 1))
          default_temperature default_max_tokens in
      let o := fst (prioritization_agent cfg this_task_id st) in
      let st' := snd (prioritization_agent cfg this_task_id st) in
      ev_prioritization (task_list st) this_task_id = EvCompletion request
      /\ match completion_create request (world st) with
         | (Replied answer, w) =>
             o = Returned tt
             /\ task_list st' = parse_response (strip answer)
             /\ world st' = w
             /\ exists pre post,
                  answer = pre ++ strip answer ++ post
                  /\ Forall (fun c => isspace c = true) pre
                  /\ Forall (fun c => isspace c = true) post
         | (Failed detail, w) =>
             o = Raised (ServiceError OpenAICompletion detail)
             /\ task_list st' = task_list st
             /\ world st' = w
         end).
Proof.
  rewrite prioritization_agent_run. cbv zeta.
  destruct (completion_create _ (world st)) as [[text|detail] w]; cbn.
  - split; [|split; [reflexivity|split; [reflexivity|split; [reflexivity|]]]].
    + exists (strip text). split; [apply strip_stripped|reflexivity].
    + split; [reflexivity|]. do 3 (split; [reflexivity|]). apply strip_cut.
  - split; [|split; [reflexivity|split; [reflexivity|split; [reflexivity|]]]].
    + split; [now exists detail|reflexivity].
    + now repeat split.
Qed.

Lemma split_without (c sep : N) (s : str) :
  contains c s = false ->
  Forall (fun field => contains c field = false) (split sep s).
Proof.
  induction s as [|x s IH]; intros H.
  - repeat constructor.
  - simpl in H. apply orb_false_iff in H as [Hx Hs]. specialize (IH Hs).
    simpl. destruct (x =? sep)%N.
    + constructor; [reflexivity|assumption].
    + destruct (split sep s) as [|f fs].
      * repeat constructor. simpl. now rewrite Hx.
      * inversion IH; subst. constructor; [|assumption].
        simpl. rewrite Hx. assumption.
Qed.

Lemma parse_response_without_dot (response : str) :
  contains DOT response = false -> parse_response response = [].
Proof.
  intros H. unfold parse_response. rewrite fold_parse_task_string. cbn [app].
  pose proof (split_without DOT NEWLINE response H) as Hfields.
  induction Hfields as [|line lines Hline _ IH]; [reflexivity|].
  cbn [List.map concat]. now rewrite parse_line_without_dot, IH.
Qed.

(** On an empty queue a turn of the loop only sleeps. *)
Lemma main_loop_idle (fuel : nat) (st : St) :
  task_list st = [] ->
  main_loop cfg fuel st
  = (Running,
     {| task_list := []; task_id_counter := task_id_counter st; index := index st;
        world := world st; calls := calls st ++ repeat (EvSleep 1) fuel |}).
Proof.
  revert st. induction fuel as [|fuel IH]; intros st Hq.
  - cbn. rewrite app_nil_r, <- Hq. now destruct st.
  - unfold main_loop in *. cbn [while repeat].
    assert (loop_body cfg st = (Returned tt, log (EvSleep 1) st)) as ->.
    { unfold loop_body, bind, get. now rewrite Hq. }
    rewrite IH by exact Hq. cbn. now rewrite <- app_assoc.
Qed.

(** X6. When the answer of the model to the prioritization prompt has no
    ['.'] at all, the agent leaves the queue empty, although the prompt
    asked not to remove tasks; from then on the loop only sleeps, whatever
    the number of turns. *)
Theorem unnumbered_answer_empties_queue (this_task_id : Z) (st st1 : St)
    (response : str) :
  openai_call
    (prioritization_prompt cfg (List.map task_name (task_list st)) (this_task_id + 1))
    (USE_GPT4 cfg) default_temperature default_max_tokens st
  = (Returned response, st1) ->
  contains DOT response = false ->
  let st' := snd (prioritization_agent cfg this_task_id st) in
  fst (prioritization_agent cfg this_task_id st) = Returned tt
  /\ task_list st' = []
  /\ forall fuel,
       fst (main_loop cfg fuel st') = Running
       /\ task_list (snd (main_loop cfg fuel st')) = []
       /\ calls (snd (main_loop cfg fuel st')) = calls st' ++ repeat (EvSleep 1) fuel.
Proof.
  intros Hcall Hdot st'.
  assert (prioritization_agent cfg this_task_id st
          = (Returned tt, set_task_list (parse_response response) st1)) as Hrun.
  { unfold prioritization_agent, bind, get, modify. now rewrite Hcall. }
  subst st'. rewrite Hrun. cbn [fst snd].
  rewrite parse_response_without_dot by assumption.
  split; [reflexivity|]. split; [reflexivity|].
  intros fuel. now rewrite main_loop_idle.
Qed.

(** X7. Whatever makes an iteration fail, the task it took off the queue is
    not put back: the queue afterwards is the rest of the old queue, in its
    order, followed at most by tasks the loop numbered itself, and the
    counter has advanced by their number. *)
Theorem failed_iteration_drops_task (st : St) (t : Task) (rest : list Task) :
  task_list st = t :: rest ->
  let o := fst (iteration cfg st) in
  let st' := snd (iteration cfg st) in
  forall e,
    o = Raised e ->
    exists new_tasks,
      task_list st' = rest ++ number_tasks (task_id_counter st) new_tasks
      /\ task_id_counter st' = task_id_counter st + Z.of_nat (length new_tasks).
Proof.
  intros Hq o st'.
  assert (iteration_run st t rest o st') as Hrun.
  { apply iteration_run_complete; [assumption|]. subst o st'. now destruct (iteration cfg st). }
  clearbody o st'. intros e He.
  destruct Hrun; try discriminate He.
  1-7: exists []; cbn; rewrite app_nil_r, Z.add_0_r; now split.
  exists new_tasks. now split.
Qed.


(* ===================================================================== *)
(** ** More on one iteration and on the loop *)
(* ===================================================================== *)

Lemma count_events_app (kind : Ev -> bool) (l1 l2 : list Ev) :
  count_events kind (l1 ++ l2) = (count_events kind l1 + count_events kind l2)%nat.
Proof. unfold count_events. now rewrite List.filter_app, length_app. Qed.

Lemma count_events_added (kind : Ev -> bool) (l : list Task) :
  (forall t, kind (EvAddTask t) = false) ->
  count_events kind (List.map EvAddTask l) = 0%nat.
Proof.
  intros Hkind. unfold count_events.
  induction l as [|t l IH]; [reflexivity|]. simpl. now rewrite Hkind.
Qed.

Ltac count_all :=
  rewrite ?count_events_app, ?count_events_added by reflexivity;
  unfold count_events; cbn; try lia.

(** X9. An iteration sends at most three requests to the model, two to the
    embedding endpoint, one query and one write to the index; an iteration
    that completes sends exactly that many. *)
Theorem iteration_request_counts (st : St) (t : Task) (rest : list Task) :
  task_list st = t :: rest ->
  let o := fst (iteration cfg st) in
  let st' := snd (iteration cfg st) in
  exists evs,
    calls st' = calls st ++ evs
    /\ (count_events is_completion evs <= 3)%nat
    /\ (count_events is_embedding evs <= 2)%nat
    /\ (count_events is_query evs <= 1)%nat
    /\ (count_events is_upsert evs <= 1)%nat
    /\ (o = Returned tt ->
        count_events is_completion evs = 3%nat
        /\ count_events is_embedding evs = 2%nat
        /\ count_events is_query evs = 1%nat
        /\ count_events is_upsert evs = 1%nat).
Proof.
  intros Hq o st'.
  assert (iteration_run st t rest o st') as Hrun.
  { apply iteration_run_complete; [assumption|]. subst o st'. now destruct (iteration cfg st). }
  clearbody o st'.
  destruct Hrun;
    match goal with H : calls _ = calls _ ++ ?l |- _ => exists l; split; [exact H|] end;
    (split; [count_all|]); (split; [count_all|]); (split; [count_all|]);
    (split; [count_all|]); intros Ho; try discriminate Ho.
  repeat split; count_all.
Qed.

Lemma starts_with_app (p s : str) : starts_with p (p ++ s) = true.
Proof.
  induction p as [|c p IH]; [reflexivity|]. simpl. now rewrite N.eqb_refl.
Qed.

Lemma index_kept_refl (m : gmap (list N) (Vector * Metadata)) : index_kept m m.
Proof. split; auto. Qed.

Lemma index_kept_trans (m1 m2 m3 : gmap (list N) (Vector * Metadata)) :
  index_kept m1 m2 -> index_kept m2 m3 -> index_kept m1 m3.
Proof.
  intros [H1 H1'] [H2 H2']. split.
  - intros id H. apply H2, H1, H.
  - intros id H. now rewrite H2', H1'.
Qed.

Lemma index_kept_stored (m : gmap (list N) (Vector * Metadata)) (t : Task)
    (record : Vector * Metadata) :
  index_kept m (<[result_id t := record]> m).
Proof.
  split.
  - intros id H. destruct (decide (result_id t = id)) as [<-|Hne].
    + rewrite lookup_insert_eq. eauto.
    + now rewrite lookup_insert_ne.
  - intros id H. apply lookup_insert_ne. intros <-.
    unfold result_id in H. rewrite starts_with_app in H. discriminate.
Qed.

Lemma iteration_index_kept (st : St) (t : Task) (rest : list Task) :
  task_list st = t :: rest ->
  index_kept (index st) (index (snd (iteration cfg st))).
Proof.
  intros Hq.
  assert (iteration_run st t rest (fst (iteration cfg st)) (snd (iteration cfg st))) as Hrun.
  { apply iteration_run_complete; [assumption|]. now destruct (iteration cfg st). }
  destruct Hrun;
    match goal with H : index _ = _ |- _ => rewrite H end;
    first [apply index_kept_refl | apply index_kept_stored].
Qed.

Lemma loop_body_index_kept (st : St) :
  index_kept (index st) (index (snd (loop_body cfg st))).
Proof.
  unfold loop_body, bind at 1, get. cbv beta iota. unfold bind.
  destruct (task_list st) as [|t rest] eqn:Hq.
  - cbn. apply index_kept_refl.
  - pose proof (iteration_index_kept st t rest Hq) as Hit.
    destruct (iteration cfg st) as [[[]|e] st1]; cbn in *; assumption.
Qed.

(** X10. However long the loop runs, it removes no record from the index,
    and it leaves every record alone whose id does not start with
    ["result_"]. *)
Theorem main_loop_keeps_records (fuel : nat) (st : St) :
  let st' := snd (main_loop cfg fuel st) in
  (forall id, is_Some (index st !! id) -> is_Some (index st' !! id))
  /\ (forall id, starts_with (py "result_") id = false ->
                 index st' !! id = index st !! id).
Proof.
  change (index_kept (index st) (index (snd (main_loop cfg fuel st)))).
  revert st. induction fuel as [|fuel IH]; intros st; [apply index_kept_refl|].
  unfold main_loop in *. cbn [while].
  pose proof (loop_body_index_kept st) as Hbody.
  destruct (loop_body cfg st) as [[[]|e] st1]; cbn in *; [|assumption].
  eapply index_kept_trans; [exact Hbody|apply IH].
Qed.

(** X11. When the index already returns its matches by descending score,
    the sort of the context agent changes nothing: the context is the [task]
    fields of the matches in the order of the index. *)
Theorem context_of_sorted_matches (matches : list Match) :
  StronglySorted (fun a b => (score b <= score a)%Q) matches ->
  context_of_matches matches
  = List.map (fun item => task (metadata item)) matches.
Proof.
  intros Hsorted. unfold context_of_matches.
  now rewrite <- (sorted_reverse_unique score matches matches Hsorted).
Qed.

(** X12. The for loop over the new tasks never raises. It leaves the tasks
    that were in the queue where they are and puts the new ones behind them
    in the order the creation agent returned them, with the names it
    returned; the index and the services are not touched. *)
Theorem add_new_tasks_appends_in_order (new_tasks : list NewTask) (st : St) :
  let st' := snd (add_new_tasks new_tasks st) in
  fst (add_new_tasks new_tasks st) = Returned tt
  /\ (exists added,
        task_list st' = task_list st ++ added
        /\ List.map task_name added = List.map new_task_name new_tasks
        /\ calls st' = calls st ++ List.map EvAddTask added)
  /\ task_id_counter st' = task_id_counter st + Z.of_nat (length new_tasks)
  /\ index st' = index st
  /\ world st' = world st.
Proof.
  rewrite add_new_tasks_run. cbn.
  split; [reflexivity|]. split; [|now repeat split].
  exists (number_tasks (task_id_counter st) new_tasks).
  split; [reflexivity|]. split; [|reflexivity].
  generalize (task_id_counter st) as c.
  induction new_tasks as [|nt news IH]; intros c; [reflexivity|].
  simpl. now rewrite IH.
Qed.

(** X13. The execution agent changes neither the queue nor the counter nor
    the index. It asks for the embedding of the objective, then queries the
    table of the configuration for 5 matches, then sends one request to the
    model with temperature 0.7 and 2000 tokens. When all three are answered
    it returns the stripped answer of the model and the log has these three
    requests in this order. When one of them fails it raises the error of
    that service, and the failed request is the last one in the log:
    nothing is asked after it. *)
Theorem execution_agent_read_only (objective task_text : str) (st : St) :
  match execution_agent cfg objective task_text st with
  | (Returned r, st') =>
      stripped r
      /\ same_globals st st'
      /\ (exists qv matches,
           calls st'
           = calls st
             ++ [EvEmbedding (replace NEWLINE SPACE objective);
                 EvQuery (YOUR_TABLE_NAME cfg) qv 5;
                 EvCompletion
                   (openai_request (USE_GPT4 cfg)
                      (execution_prompt objective (context_of_matches matches) task_text)
                      (7 # 10) 2000)])
      /\ (exists qv matches w1 w2 answer,
           embedding_create (replace NEWLINE SPACE objective) (world st)
           = (Replied qv, w1)
           /\ index_query (index st) (YOUR_TABLE_NAME cfg) qv 5 w1
              = (Replied matches, w2)
           /\ completion_create
                (openai_request (USE_GPT4 cfg)
                   (execution_prompt objective (context_of_matches matches) task_text)
                   (7 # 10) 2000) w2
              = (Replied answer, world st')
           /\ r = strip answer
           /\ calls st'
              = calls st
                ++ [EvEmbedding (replace NEWLINE SPACE objective);
                    EvQuery (YOUR_TABLE_NAME cfg) qv 5;
                    EvCompletion
                      (openai_request (USE_GPT4 cfg)
                         (execution_prompt objective (context_of_matches matches)
                            task_text)
                         (7 # 10) 2000)])
  | (Raised e, st') =>
      same_globals st st'
      /\ (exists svc detail, e = ServiceError svc detail /\ svc <> PineconeUpsert)
      /\ (exists evs,
           calls st' = calls st ++ evs /\ (1 <= length evs <= 3)%nat)
      /\ ((exists detail,
             e = ServiceError OpenAIEmbedding detail
             /\ embedding_create (replace NEWLINE SPACE objective) (world st)
                = (Failed detail, world st')
             /\ calls st'
                = calls st ++ [EvEmbedding (replace NEWLINE SPACE objective)])
          \/ (exists detail qv w1,
                e = ServiceError PineconeQuery detail
                /\ embedding_create (replace NEWLINE SPACE objective) (world st)
                   = (Replied qv, w1)
                /\ index_query (index st) (YOUR_TABLE_NAME cfg) qv 5 w1
                   = (Failed detail, world st')
                /\ calls st'
                   = calls st
                     ++ [EvEmbedding (replace NEWLINE SPACE objective);
                         EvQuery (YOUR_TABLE_NAME cfg) qv 5])
          \/ (exists detail qv matches w1 w2,
                e = ServiceError OpenAICompletion detail
                /\ embedding_create (replace NEWLINE SPACE objective) (world st)
                   = (Replied qv, w1)
                /\ index_query (index st) (YOUR_TABLE_NAME cfg) qv 5 w1
                   = (Replied matches, w2)
                /\ completion_create
                     (openai_request (USE_GPT4 cfg)
                        (execution_prompt objective (context_of_matches matches)
                           task_text)
                        (7 # 10) 2000) w2
                   = (Failed detail, world st')
                /\ calls st'
                   = calls st
                     ++ [EvEmbedding (replace NEWLINE SPACE objective);
                         EvQuery (YOUR_TABLE_NAME cfg) qv 5;
                         EvCompletion
                           (openai_request (USE_GPT4 cfg)
                              (execution_prompt objective (context_of_matches matches)
                                 task_text)
                              (7 # 10) 2000)]))
  end.
Proof.
  destruct (execution_agent cfg objective task_text st) as [o st'] eqn:Hrun.
  repeat expose_in Hrun. answer_in Hrun.
  2:{ cbv beta iota in Hrun. injection Hrun as <- <-.
      split; [now repeat split|]. split; [eexists _, _; now split|].
      split; [eexists [_]; split; [reflexivity|cbn; lia]|].
      left. eexists. split; [reflexivity|]. split; [first [reflexivity | eassumption]|reflexivity]. }
  repeat expose_in Hrun. answer_in Hrun.
  2:{ cbv beta iota in Hrun. injection Hrun as <- <-.
      split; [now repeat split|]. split; [eexists _, _; now split|].
      split; [eexists [_; _]; split; [fields|cbn; lia]|].
      right. left. eexists _, _, _. split; [reflexivity|].
      split; [first [reflexivity | eassumption]|]. split; [first [reflexivity | eassumption]|fields]. }
  repeat expose_in Hrun. answer_in Hrun.
  2:{ cbv beta iota in Hrun. injection Hrun as <- <-.
      split; [now repeat split|]. split; [eexists _, _; now split|].
      split; [eexists [_; _; _]; split; [fields|cbn; lia]|].
      right. right. eexists _, _, _, _, _. split; [reflexivity|].
      split; [first [reflexivity | eassumption]|]. split; [first [reflexivity | eassumption]|]. split; [first [reflexivity | eassumption]|fields]. }
  cbv beta iota in Hrun. injection Hrun as <- <-.
  split; [apply strip_stripped|]. split; [now repeat split|].
  split; [eexists _, _; fields|].
  eexists _, _, _, _, _.
  split; [first [reflexivity | eassumption]|]. split; [first [reflexivity | eassumption]|]. split; [first [reflexivity | eassumption]|].
  split; [reflexivity|fields].
Qed.

(** X14. The creation agent never returns an empty list, so an iteration
    that completes has handed out at least one new id: the counter is
    larger afterwards. *)
Theorem completed_iteration_advances_counter (st : St) (t : Task) (rest : list Task) :
  task_list st = t :: rest ->
  fst (iteration cfg st) = Returned tt ->
  task_id_counter st < task_id_counter (snd (iteration cfg st))
  /\ (forall objective result task_description names (st0 : St) created,
        fst (task_creation_agent cfg objective result task_description names st0)
        = Returned created ->
        created <> []).
Proof.
  intros Hq Ho. split.
  - destruct (iteration cfg st) as [o st'] eqn:Hrun. cbn [fst snd] in *. subst o.
    unfold iteration, bind at 1, popleft in Hrun. rewrite Hq in Hrun.
    repeat expose_in Hrun. answer_in Hrun.
    2:{ cbv beta iota in Hrun. discriminate Hrun. }
    repeat expose_in Hrun. answer_in Hrun.
    2:{ cbv beta iota in Hrun. discriminate Hrun. }
    repeat expose_in Hrun. answer_in Hrun.
    2:{ cbv beta iota in Hrun. discriminate Hrun. }
    cbv beta iota in Hrun.
    assert (exists n,
              (forall s0 : St, int_of_task_id (task_id t) s0 = (Returned n, s0))
              \/ (exists s, forall s0 : St,
                      int_of_task_id (task_id t) s0 = (Raised (ValueError s), s0)))
      as (n & [Hint | (s & Hint)]).
    { unfold int_of_task_id. destruct (task_id t) as [n|s]; [exists n; now left|].
      destruct (int_of_str s) as [n|]; [exists n; now left|].
      exists 0. right. now exists s. }
    2:{ rewrite Hint in Hrun. cbv beta iota in Hrun. discriminate Hrun. }
    rewrite Hint in Hrun.
    repeat expose_in Hrun. answer_in Hrun.
    2:{ cbv beta iota in Hrun. discriminate Hrun. }
    repeat expose_in Hrun. answer_in Hrun.
    { cbv beta iota in Hrun. discriminate Hrun. }
    repeat expose_in Hrun. answer_in Hrun.
    2:{ cbv beta iota in Hrun. discriminate Hrun. }
    repeat expose_in Hrun. answer_in Hrun.
    2:{ cbv beta iota in Hrun. discriminate Hrun. }
    cbv beta iota in Hrun. injection Hrun as <-.
    cbn [task_id_counter log set_world set_task_list set_index set_task_id_counter].
    rewrite length_map, length_split. lia.
  - intros objective result task_description names st0 created.
    unfold task_creation_agent, bind, ret.
    destruct (openai_call _ _ _ _ st0) as [[text|e] st1]; [|discriminate].
    cbn [fst]. intros [= <-] Hnil.
    apply List.map_eq_nil in Hnil. now apply split_nonempty in Hnil.
Qed.

Lemma parsed_ids_are_strings (response : str) :
  Forall (fun t => exists s, task_id t = IdStr s) (parse_response response).
Proof.
  unfold parse_response. rewrite fold_parse_task_string, app_nil_l.
  pose proof (split_fields NEWLINE response) as Hfields.
  induction Hfields as [|line lines Hline _ IH]; [constructor|].
  cbn [List.map concat]. apply List.Forall_app. split; [|exact IH].
  eapply List.Forall_impl; [|exact (parse_line_shape line Hline)].
  intros t (s & Hs & _). now exists s.
Qed.

(** X17. The ids the loop hands out do not survive a completed iteration:
    afterwards every task in the queue has a [str] id, the one the model
    wrote in its numbered list. *)
Theorem completed_iteration_leaves_string_ids (st : St) (t : Task) (rest : list Task) :
  task_list st = t :: rest ->
  fst (iteration cfg st) = Returned tt ->
  Forall (fun queued => exists s, task_id queued = IdStr s)
    (task_list (snd (iteration cfg st))).
Proof.
  intros Hq Ho.
  assert (iteration_run st t rest (fst (iteration cfg st)) (snd (iteration cfg st))) as Hrun.
  { apply iteration_run_complete; [assumption|]. now destruct (iteration cfg st). }
  rewrite Ho in Hrun. inversion Hrun as [| | | | | | | |? ? ? ? ? ? response ? ? ? ? ? Hlist].
  rewrite Hlist. apply parsed_ids_are_strings.
Qed.

(** X18. A turn of the loop that completes ends with one sleep of one
    second and sleeps nowhere else; a turn that raises does not sleep, and
    a turn raises only when the queue was not empty. *)
Theorem loop_body_sleeps_once (st : St) :
  match loop_body cfg st with
  | (Returned _, st') =>
      exists evs,
        calls st' = calls st ++ evs ++ [EvSleep 1]
        /\ count_events is_sleep evs = 0%nat
  | (Raised e, st') =>
      task_list st <> []
      /\ exists evs,
           calls st' = calls st ++ evs /\ count_events is_sleep evs = 0%nat
  end.
Proof.
  unfold loop_body, bind at 1, get. cbv beta iota. unfold bind.
  destruct (task_list st) as [|t rest] eqn:Hq.
  - cbn. exists []. now rewrite app_nil_l.
  - assert (iteration_run st t rest (fst (iteration cfg st)) (snd (iteration cfg st)))
      as Hrun.
    { apply iteration_run_complete; [assumption|]. now destruct (iteration cfg st). }
    destruct (iteration cfg st) as [[[]|e] st1]; cbn [fst snd] in Hrun.
    + cbn. inversion Hrun; subst.
      match goal with H : calls st1 = calls st ++ ?l |- _ =>
        exists l; rewrite H; split; [now rewrite <- app_assoc|count_all] end.
    + split; [discriminate|].
      inversion Hrun; subst;
        match goal with H : calls st1 = calls st ++ ?l |- _ =>
          exists l; split; [exact H|count_all] end.
Qed.

End Facts.

(* ===================================================================== *)
(** ** The checks before the loop *)
(* ===================================================================== *)

Lemma is_empty_false (s : str) : is_empty s = false -> s <> [].
Proof. now destruct s. Qed.

Lemma getenv_nonempty (environ : gmap (list N) (list N)) (key : str) :
  is_empty (getenv environ key []) = false ->
  environ !! key = Some (getenv environ key []).
Proof. unfold getenv. now destruct (environ !! key). Qed.

Ltac split_checks H :=
  repeat match type of H with
         | (if ?b then _ else _) = _ => destruct b eqn:?; [discriminate H|]
         end.

(** X15. When the code before the loop gets as far as the loop, the
    instance name is not empty, the objective is the words of the command
    line joined by blanks and stripped, and is not empty, the initial task
    is not empty unless the script joins an objective, joining was accepted
    only with the package importable, and the three variables that have no
    default were set in the environment. *)
Theorem configure_started (environ : gmap (list N) (list N)) (args : Args)
    (can_import_ray : bool) (name : str) (joining : bool) (cfg : Config) :
  configure environ args can_import_ray = Started name joining cfg ->
  name = args_name args /\ name <> []
  /\ joining = args_join args /\ (joining = true -> can_import_ray = true)
  /\ OBJECTIVE cfg = strip (join (py " ") (args_objective args))
  /\ OBJECTIVE cfg <> []
  /\ INITIAL_TASK cfg = args_task args
  /\ (joining = false -> INITIAL_TASK cfg <> [])
  /\ USE_GPT4 cfg = args_use_gpt4 args
  /\ YOUR_TABLE_NAME cfg <> []
  /\ environ !! py "TABLE_NAME" = Some (YOUR_TABLE_NAME cfg)
  /\ is_Some (environ !! py "OPENAI_API_KEY")
  /\ is_Some (environ !! py "PINECONE_API_KEY").
Proof.
  unfold configure. cbv zeta. intros H. split_checks H. injection H as <- <- <-.
  cbn [OBJECTIVE INITIAL_TASK YOUR_TABLE_NAME USE_GPT4].
  repeat match goal with
         | E : is_empty (getenv _ _ []) = false |- _ =>
             pose proof (is_empty_false _ E); apply getenv_nonempty in E
         | E : is_empty _ = false |- _ => apply is_empty_false in E
         end.
  split; [reflexivity|]. split; [assumption|]. split; [reflexivity|].
  split.
  { intros Hj. match goal with E : _ && negb can_import_ray = false |- _ =>
      rewrite Hj in E; now destruct can_import_ray end. }
  split; [reflexivity|]. split; [assumption|]. split; [reflexivity|].
  split.
  { intros Hj. match goal with E : is_empty (args_task args) && _ = false |- _ =>
      rewrite Hj in E; destruct (args_task args); [discriminate E|discriminate] end. }
  split; [reflexivity|]. split; [assumption|]. split; [assumption|].
  split; eauto.
Qed.

Lemma configure_initial_task (environ : gmap (list N) (list N)) (args : Args)
    (can_import_ray : bool) (name : str) (joining : bool) (cfg : Config) :
  configure environ args can_import_ray = Started name joining cfg ->
  INITIAL_TASK cfg = args_task args
  /\ (args_join args = false -> args_task args <> []).
Proof.
  unfold configure. cbv zeta. intros H. split_checks H. injection H as <- <- <-.
  split; [reflexivity|]. intros Hj.
  match goal with E : is_empty (args_task args) && _ = false |- _ =>
    rewrite Hj in E; destruct (args_task args); [discriminate E|discriminate] end.
Qed.

(** X16. Without an initial task the script does not reach the loop, unless
    it joins an objective: then the empty task is accepted, and the loop is
    entered on a queue that holds one task with id 1 and the empty name. *)
Theorem empty_initial_task (environ : gmap (list N) (list N)) (args : Args)
    (can_import_ray : bool) :
  args_task args = [] ->
  (args_join args = false ->
   forall name joining cfg,
     configure environ args can_import_ray <> Started name joining cfg)
  /\ (forall name joining cfg,
        configure environ args can_import_ray = Started name joining cfg ->
        forall (World Vector : Type) (idx : gmap (list N) (Vector * Metadata))
               (w : World),
          task_list (startup cfg idx w)
          = [{| task_id := IdInt 1; task_name := [] |}]).
Proof.
  intros Htask. split.
  - intros Hjoin name joining cfg H.
    apply configure_initial_task in H as [_ Hne]. now apply Hne.
  - intros name joining cfg H World Vector idx w.
    apply configure_initial_task in H as [Hinit _].
    cbn. unfold first_task. now rewrite Hinit, Htask.
Qed.


(* ===================================================================== *)
(** ** The program on examples *)
(* ===================================================================== *)

Example split_lines_ex :
  split NEWLINE (py "a" ++ [NEWLINE; NEWLINE] ++ py "b") = [py "a"; []; py "b"].
Proof. reflexivity. Qed.

Example split_empty_ex : split NEWLINE [] = [[]].
Proof. reflexivity. Qed.

Example split1_ex : split1 DOT (py "3. a.b") = [py "3"; py " a.b"].
Proof. reflexivity. Qed.

Example strip_ex : strip (py "  3. Clean  ") = py "3. Clean".
Proof. reflexivity. Qed.

Example str_of_int_ex :
  str_of_int 120 = py "120" /\ str_of_int 0 = py "0" /\ str_of_int (-7) = py "-7".
Proof. repeat split; reflexivity. Qed.

Example sorted_reverse_ex :
  sorted_reverse (fun p : Q * nat => fst p)
    [(1 # 2, 0%nat); (9 # 10, 1%nat); (1 # 2, 2%nat); (3 # 4, 3%nat)]
  = [(9 # 10, 1%nat); (3 # 4, 3%nat); (1 # 2, 0%nat); (1 # 2, 2%nat)].
Proof. reflexivity. Qed.

(** C2 does not hold as stated: for the answer ["a\n\nb"] the agent returns
    three tasks, one of them with the empty name, although only two lines of
    the answer are not empty. *)
Lemma task_creation_agent_keeps_empty_lines :
  let response := py "a" ++ [NEWLINE; NEWLINE] ++ py "b" in
  let w := {| Mock.replies := [Replied response]; Mock.found := []; Mock.faults := [] |} in
  let st : @State Mock.World (list N) := startup Mock.poem ∅ w in
  let nonempty (line : str) := negb (length line =? 0)%nat in
  fst (task_creation_agent (services := Mock.services) (builtins := Mock.builtins)
         Mock.poem (OBJECTIVE Mock.poem) {| data := py "r" |} (py "t") [] st)
  = Returned [mkNewTask (py "a"); mkNewTask []; mkNewTask (py "b")]
  /\ length (List.filter nonempty (split NEWLINE response)) = 2%nat.
Proof. split; reflexivity. Qed.

(** The end-to-end scenario: one turn of the loop on the seed task. The
    result goes under ["result_1"], the two new tasks get the ids 2 and 3,
    and the queue afterwards is what the prioritization agent parsed. *)
Example poem_first_turn :
  let run := main_loop (services := Mock.services) (builtins := Mock.builtins)
               Mock.poem 1 Mock.poem_start in
  fst run = Running
  /\ task_list (snd run)
     = [ {| task_id := IdStr (py "2"); task_name := py "Pick a title" |};
         {| task_id := IdStr (py "3"); task_name := py "Write second stanza" |} ]
  /\ task_id_counter (snd run) = 3
  /\ index (snd run) !! py "result_1"
     = Some (py "Roses are red...",
             {| task := py "Draft first stanza"; result := py "Roses are red..." |})
  /\ assigned_ids (calls (snd run)) = [IdInt 1; IdInt 2; IdInt 3].
Proof. repeat split; reflexivity. Qed.

(** The same turn when the index refuses the write: the loop ends with the
    error of the write, the seed task is off the queue and no task was
    created or appended. *)
Example poem_refused_write :
  let run := main_loop (services := Mock.services) (builtins := Mock.builtins)
               Mock.poem 1 Mock.refusing_start in
  fst run = Uncaught (ServiceError PineconeUpsert (py "unavailable"))
  /\ task_list (snd run) = []
  /\ task_id_counter (snd run) = 1
  /\ index (snd run) = ∅
  /\ assigned_ids (calls (snd run)) = [IdInt 1].
Proof. repeat split; reflexivity. Qed.

(* ===================================================================== *)
(** ** The statements at concrete runs *)
(* ===================================================================== *)

(** C4 on the first iteration of the example run. *)
Lemma iteration_steps_in_order_witness :
  task_list Mock.poem_start = [first_task Mock.poem]
  /\ exists evs : list Event,
       calls (snd (iteration (services := Mock.services) (builtins := Mock.builtins)
                     Mock.poem Mock.poem_start))
       = calls Mock.poem_start ++ evs
       /\ evs !! 0%nat = Some (EvPopLeft (first_task Mock.poem)).
Proof.
  split; [reflexivity|].
  destruct (iteration_steps_in_order (services := Mock.services)
              (builtins := Mock.builtins) Mock.poem Mock.poem_start
              (first_task Mock.poem) [] eq_refl) as (evs & Hcalls & Hpop & _).
  exists evs. split; assumption.
Defined.

(** C5 on the first iteration of the example run: the result of the seed
    task goes under ["result_1"]; and on a task with the [str] id ["2"]: its
    result goes under ["result_2"] and replaces the record found there. *)
Lemma result_stored_under_task_id_witness :
  (task_list Mock.poem_start = [first_task Mock.poem]
   /\ exists evs : list Event,
        calls (snd (iteration (services := Mock.services) (builtins := Mock.builtins)
                      Mock.poem Mock.poem_start))
        = calls Mock.poem_start ++ evs
        /\ exists v r,
             In (EvUpsert (py "result_1") v
                   {| task := py "Draft first stanza"; result := r |}) evs)
  /\ (let run := iteration (services := Mock.services) (builtins := Mock.builtins)
                   Mock.poem Mock.renumbered_start in
      task_list Mock.renumbered_start = [Mock.renumbered_task]
      /\ exists v r,
           index (snd run) !! py "result_2"
           = Some (v, {| task := py "Pick a title"; result := r |})
           /\ size (index (snd run)) = size (index Mock.renumbered_start)).
Proof.
  split.
  - split; [reflexivity|].
    destruct (result_stored_under_task_id (services := Mock.services)
                (builtins := Mock.builtins) Mock.poem Mock.poem_start
                (first_task Mock.poem) [] eq_refl) as (evs & Hcalls & _ & Hdone & _).
    exists evs. split; [exact Hcalls|]. apply Hdone. reflexivity.
  - intros run. split; [reflexivity|].
    destruct (result_stored_under_task_id (services := Mock.services)
                (builtins := Mock.builtins) Mock.poem Mock.renumbered_start
                Mock.renumbered_task [] eq_refl) as (evs & _ & Hsent & Hdone & _).
    destruct (Hdone eq_refl) as (v & r & Hin).
    destruct (Hsent _ _ _ Hin) as (_ & _ & _ & [[[detail Hfail] _] | Hkept] & _).
    + discriminate Hfail.
    + destruct Hkept as (Hrecord & _ & Hsize & _).
      exists v, r. split; [exact Hrecord|].
      apply Hsize. now eexists.
Defined.

(** C9 on a queue whose first task has the id ["one"]. *)
Lemma unparsable_id_raises_before_storing_witness :
  task_list Mock.unparsable_start = [Mock.unparsable_task]
  /\ task_id Mock.unparsable_task = IdStr (py "one")
  /\ int_of_str (Builtins := Mock.builtins) (py "one") = None
  /\ fst (iteration (services := Mock.services) (builtins := Mock.builtins)
            Mock.poem Mock.unparsable_start)
     = Raised (ValueError (py "one"))
  /\ index (snd (iteration (services := Mock.services) (builtins := Mock.builtins)
                   Mock.poem Mock.unparsable_start))
     = index Mock.unparsable_start.
Proof.
  do 3 (split; [reflexivity|]).
  destruct (unparsable_id_raises_before_storing (services := Mock.services)
              (builtins := Mock.builtins) Mock.poem Mock.unparsable_start
              Mock.unparsable_task [] (py "one") eq_refl eq_refl eq_refl)
    as (_ & Hindex & _ & _ & Hraise).
  split; [|exact Hindex].
  destruct (Hraise (py "A title") eq_refl) as [Ho _]. exact Ho.
Defined.

(** C7 on an index that returns three matches out of order. *)
Lemma context_agent_sorts_by_score_witness :
  embedding_create (Services := Mock.services) (replace NEWLINE SPACE (py "q"))
    (world Mock.scored_start)
  = (Replied (py "q"), world Mock.scored_start)
  /\ index_query (Services := Mock.services) (index Mock.scored_start) (py "tasks")
       (py "q") 5 (world Mock.scored_start)
     = (Replied Mock.scored_matches, world Mock.scored_start)
  /\ exists sorted_results : list Match,
       fst (context_agent (services := Mock.services) (py "q") (py "tasks") 5
              Mock.scored_start)
       = Returned (List.map (fun item => task (metadata item)) sorted_results)
       /\ Permutation Mock.scored_matches sorted_results
       /\ StronglySorted (fun a b => (score b <= score a)%Q) sorted_results.
Proof.
  do 2 (split; [reflexivity|]).
  destruct (context_agent_sorts_by_score (services := Mock.services)
              (py "q") (py "tasks") 5 Mock.scored_start (py "q")
              (world Mock.scored_start) (world Mock.scored_start)
              Mock.scored_matches eq_refl eq_refl)
    as (sorted_results & Hrun & Hperm & Hsorted & _).
  exists sorted_results. repeat split; assumption.
Defined.

(** C8 on the empty index of the example run. *)
Lemma context_agent_no_matches_witness :
  embedding_create (Services := Mock.services)
    (replace NEWLINE SPACE (py "Write a poem")) (world Mock.poem_start)
  = (Replied (py "Write a poem"), world Mock.poem_start)
  /\ index_query (Services := Mock.services) (index Mock.poem_start) (py "tasks")
       (py "Write a poem") 5 (world Mock.poem_start)
     = (Replied [], world Mock.poem_start)
  /\ fst (context_agent (services := Mock.services) (py "Write a poem") (py "tasks") 5
            Mock.poem_start)
     = Returned [].
Proof.
  do 2 (split; [reflexivity|]).
  destruct (context_agent_no_matches (services := Mock.services)
              (builtins := Mock.builtins) Mock.poem
              (py "Write a poem") (py "tasks") 5 Mock.poem_start (py "Write a poem")
              (world Mock.poem_start) (world Mock.poem_start) eq_refl eq_refl)
    as [Hempty _].
  exact Hempty.
Defined.

(* ===================================================================== *)
(** ** The further statements at concrete runs *)
(* ===================================================================== *)

(** X4 on a list of two lines, one with a ['.'] in the name. *)
Lemma parse_response_reads_numbered_list_witness :
  let items := [(py "2", py "Pick a title"); (py " 3", py "Write v1.0 notes ")] in
  Forall (fun item => contains DOT (fst item) = false
                      /\ contains NEWLINE (fst item) = false
                      /\ contains NEWLINE (snd item) = false) items
  /\ parse_response
       (join [NEWLINE] (List.map (fun item => format_line (fst item) (snd item)) items))
     = [ {| task_id := IdStr (py "2"); task_name := py "Pick a title" |};
         {| task_id := IdStr (py "3"); task_name := py "Write v1.0 notes" |} ].
Proof.
  intros items.
  assert (Forall (fun item => contains DOT (fst item) = false
                              /\ contains NEWLINE (fst item) = false
                              /\ contains NEWLINE (snd item) = false) items) as Hitems.
  { repeat constructor. }
  split; [exact Hitems|].
  exact (parse_response_reads_numbered_list items Hitems).
Defined.

(** X6 on an answer without any numbered line. *)
Lemma unnumbered_answer_empties_queue_witness :
  let prompt :=
    prioritization_prompt (builtins := Mock.builtins) Mock.poem
      (List.map task_name (task_list Mock.unnumbered_start)) (1 + 1) in
  let call :=
    openai_call (services := Mock.services) prompt (USE_GPT4 Mock.poem)
      default_temperature default_max_tokens Mock.unnumbered_start in
  call = (Returned (py "Nothing left to do"), snd call)
  /\ contains DOT (py "Nothing left to do") = false
  /\ task_list (snd (prioritization_agent (services := Mock.services)
                       (builtins := Mock.builtins) Mock.poem 1 Mock.unnumbered_start))
     = [].
Proof.
  intros prompt call.
  assert (call = (Returned (py "Nothing left to do"), snd call)) as Hcall
    by reflexivity.
  split; [exact Hcall|]. split; [reflexivity|].
  destruct (unnumbered_answer_empties_queue (services := Mock.services)
              (builtins := Mock.builtins) Mock.poem 1 Mock.unnumbered_start
              (snd call) (py "Nothing left to do") Hcall eq_refl)
    as (_ & Hempty & _).
  exact Hempty.
Defined.

(** X7 on the run whose write is refused. *)
Lemma failed_iteration_drops_task_witness :
  let run := iteration (services := Mock.services) (builtins := Mock.builtins)
               Mock.poem Mock.refusing_start in
  task_list Mock.refusing_start = [first_task Mock.poem]
  /\ fst run = Raised (ServiceError PineconeUpsert (py "unavailable"))
  /\ exists new_tasks,
       task_list (snd run)
       = [] ++ number_tasks (task_id_counter Mock.refusing_start) new_tasks
       /\ task_id_counter (snd run)
          = task_id_counter Mock.refusing_start + Z.of_nat (length new_tasks).
Proof.
  intros run. split; [reflexivity|]. split; [reflexivity|].
  exact (failed_iteration_drops_task (services := Mock.services)
           (builtins := Mock.builtins) Mock.poem Mock.refusing_start
           (first_task Mock.poem) [] eq_refl _ eq_refl).
Defined.


(** X9 on the first iteration of the example run. *)
Lemma iteration_request_counts_witness :
  let run := iteration (services := Mock.services) (builtins := Mock.builtins)
               Mock.poem Mock.poem_start in
  task_list Mock.poem_start = [first_task Mock.poem]
  /\ exists evs : list Event,
       calls (snd run) = calls Mock.poem_start ++ evs
       /\ count_events is_completion evs = 3%nat
       /\ count_events is_embedding evs = 2%nat.
Proof.
  intros run. split; [reflexivity|].
  destruct (iteration_request_counts (services := Mock.services)
              (builtins := Mock.builtins) Mock.poem Mock.poem_start
              (first_task Mock.poem) [] eq_refl)
    as (evs & Hcalls & _ & _ & _ & _ & Hdone).
  destruct (Hdone eq_refl) as (Hc & He & _).
  exists evs. repeat split; assumption.
Defined.

(** X11 on matches that come by descending score. *)
Lemma context_of_sorted_matches_witness :
  StronglySorted (fun a b => (score b <= score a)%Q) Mock.ordered_matches
  /\ context_of_matches Mock.ordered_matches = [py "b"; py "a"; py "c"].
Proof.
  assert (StronglySorted (fun a b => (score b <= score a)%Q) Mock.ordered_matches)
    as Hsorted.
  { repeat constructor; unfold Qle; cbn; lia. }
  split; [exact Hsorted|].
  exact (context_of_sorted_matches Mock.ordered_matches Hsorted).
Defined.

(** X14 on the first iteration of the example run. *)
Lemma completed_iteration_advances_counter_witness :
  let run := iteration (services := Mock.services) (builtins := Mock.builtins)
               Mock.poem Mock.poem_start in
  task_list Mock.poem_start = [first_task Mock.poem]
  /\ fst run = Returned tt
  /\ task_id_counter Mock.poem_start < task_id_counter (snd run).
Proof.
  intros run. split; [reflexivity|]. split; [reflexivity|].
  destruct (completed_iteration_advances_counter (services := Mock.services)
              (builtins := Mock.builtins) Mock.poem Mock.poem_start
              (first_task Mock.poem) [] eq_refl eq_refl) as [Hlt _].
  exact Hlt.
Defined.

(** X15 on a plain start of the example. *)
Lemma configure_started_witness :
  configure Mock.environ Mock.plain_args false
  = Started (py "BabyAGI") false Mock.poem
  /\ OBJECTIVE Mock.poem <> []
  /\ Mock.environ !! py "TABLE_NAME" = Some (YOUR_TABLE_NAME Mock.poem).
Proof.
  assert (configure Mock.environ Mock.plain_args false
          = Started (py "BabyAGI") false Mock.poem) as Hstart by reflexivity.
  split; [exact Hstart|].
  destruct (configure_started _ _ _ _ _ _ Hstart)
    as (_ & _ & _ & _ & _ & Hobjective & _ & _ & _ & _ & Htable & _).
  split; assumption.
Defined.

(** X16 on a join without an initial task. *)
Lemma empty_initial_task_witness :
  let joined := {| OBJECTIVE := py "Write a poem"; INITIAL_TASK := [];
                   YOUR_TABLE_NAME := py "tasks"; USE_GPT4 := false |} in
  args_task Mock.join_args = []
  /\ configure Mock.environ Mock.join_args true = Started (py "BabyAGI") true joined
  /\ task_list (startup joined (∅ : gmap (list N) (list N * Metadata)) Mock.poem_world)
     = [{| task_id := IdInt 1; task_name := [] |}].
Proof.
  intros joined.
  assert (configure Mock.environ Mock.join_args true
          = Started (py "BabyAGI") true joined) as Hstart by reflexivity.
  split; [reflexivity|]. split; [exact Hstart|].
  destruct (empty_initial_task Mock.environ Mock.join_args true eq_refl) as [_ Hseed].
  exact (Hseed _ _ _ Hstart _ _ _ _).
Defined.

(** X17 on the first iteration of the example run. *)
Lemma completed_iteration_leaves_string_ids_witness :
  let run := iteration (services := Mock.services) (builtins := Mock.builtins)
               Mock.poem Mock.poem_start in
  task_list Mock.poem_start = [first_task Mock.poem]
  /\ fst run = Returned tt
  /\ Forall (fun queued => exists s, task_id queued = IdStr s) (task_list (snd run)).
Proof.
  intros run. split; [reflexivity|]. split; [reflexivity|].
  exact (completed_iteration_leaves_string_ids (services := Mock.services)
           (builtins := Mock.builtins) Mock.poem Mock.poem_start
           (first_task Mock.poem) [] eq_refl eq_refl).
Defined.
